(** * The [download] language of pre-commit: provisioning and integrity checks

    A shallow embedding of [pre_commit/languages/download.py]: platform
    tokens, SRI integrity descriptors with their streaming check, manifest
    entries, the installer and the health check, followed by the properties
    proved about them.

    Conventions of the embedding.
    - Python [str] is [string]: the text in UTF-8, one byte to a character of
      [string].  The functions on text follow Python on the characters so
      encoded; a [string] that is not well-formed UTF-8 stands for no text.
      Python [bytes] is [list byte].
    - A raised exception is a value of [exn]; a computation that may raise
      returns a [result]; a computation that also touches the file system
      threads a [World] and keeps the effects done before a raise.
    - What the module takes from its surroundings (hashlib, the platform
      module, urllib, pathlib, the environment-directory allocator, the
      Unicode database, the file system and what it refuses) is gathered in a
      [Runtime] record; the definitions are parametric in it. *)

From Stdlib Require Import ZArith NArith Lia Ascii String List DecimalString.
From Stdlib.Strings Require Import Byte.
From stdpp Require Import base strings gmap list.

Abbreviation bytes := (list byte).

(* ===================================================================== *)
(** ** Exceptions *)
(* ===================================================================== *)

(** The exception classes the module meets, with Python's inheritance. *)
Module Cls.
Inductive t :=
| BaseException | Exception
| ValueError | TypeError | LookupError | KeyError
| OSError | FileNotFoundError | FileExistsError | PermissionError
| IsADirectoryError | NotADirectoryError | URLError
| UnicodeError | UnicodeDecodeError | binascii_Error
| ChecksumMismatchError.

#[global] Instance eq_dec : EqDecision t.
Proof. solve_decision. Defined.

(** The base class named in each [class] statement.
    [class ChecksumMismatchError(ValueError)] is the module's own. *)
Definition base (c : t) : option t :=
  match c with
  | BaseException => None
  | Exception => Some BaseException
  | ValueError | TypeError | LookupError | OSError => Some Exception
  | KeyError => Some LookupError
  | FileNotFoundError | FileExistsError | PermissionError
  | IsADirectoryError | NotADirectoryError | URLError => Some OSError
  | UnicodeError | binascii_Error => Some ValueError
  | UnicodeDecodeError => Some UnicodeError
  | ChecksumMismatchError => Some ValueError
  end.

(** The class and its ancestors, nearest first. *)
Fixpoint mro (fuel : nat) (c : t) : list t :=
  match fuel with
  | O => [c]
  | S n => c :: match base c with Some b => mro n b | None => [] end
  end.

Definition issubclass (c d : t) : bool := bool_decide (d ∈ mro 4 c).
End Cls.

(** [ChecksumMismatchError(expected=..., actual=..., message=...)]:
    keyword-only arguments kept in three private fields, read back through
    the properties [expected], [actual] and [message]. *)
Record ChecksumMismatchError := {
  expected : string;
  actual : string;
  message : string
}.

(** An exception object: a built-in class raised with one argument, or the
    module's own error. *)
Inductive exn :=
| Builtin (c : Cls.t) (arg : string)
| Mismatch (e : ChecksumMismatchError).

Definition class_of (e : exn) : Cls.t :=
  match e with
  | Builtin c _ => c
  | Mismatch _ => Cls.ChecksumMismatchError
  end.

Definition isinstance (e : exn) (c : Cls.t) : bool :=
  Cls.issubclass (class_of e) c.

(** [except c:] catches [e]. *)
Definition catches (c : Cls.t) (e : exn) : bool := isinstance e c.

Inductive result (A : Type) :=
| Ok (a : A)
| Raise (e : exn).
Arguments Ok {A} a.
Arguments Raise {A} e.

(** [result] is a monad: a raise skips what follows. *)
#[global] Instance result_ret : MRet result := fun _ a => Ok a.
#[global] Instance result_bind : MBind result := fun _ _ k r =>
  match r with
  | Ok a => k a
  | Raise e => Raise e
  end.

(* ===================================================================== *)
(** ** Text *)
(* ===================================================================== *)

Module Str.

Definition code (c : ascii) : N := N_of_ascii c.
Definition chr (n : N) : ascii := ascii_of_N n.

Definition LF : ascii := chr 10.
Definition CR : ascii := chr 13.
Definition nl : string := String LF EmptyString.

(** *** The characters of a text *)

(** [s[:n]] and [s[n:]], counted in bytes. *)
Fixpoint slice_to (n : nat) (s : string) : string :=
  match n, s with
  | S k, String c r => String c (slice_to k r)
  | _, _ => EmptyString
  end.

Fixpoint slice_from (n : nat) (s : string) : string :=
  match n, s with
  | S k, String _ r => slice_from k r
  | _, _ => s
  end.

(** A continuation byte of UTF-8. *)
Definition cont (c : ascii) : bool := ((128 <=? code c) && (code c <? 192))%N.

(** The bounds of the second byte after the lead byte [n] of a character
    of three or four bytes: no overlong form, no surrogate, nothing above
    U+10FFFF. *)
Definition second_low (n : N) : N :=
  (if n =? 224 then 160 else if n =? 240 then 144 else 128)%N.
Definition second_high (n : N) : N :=
  (if n =? 237 then 159 else if n =? 244 then 143 else 191)%N.

(** The number of bytes of the character that starts [s], [None] when [s]
    is empty or starts with bytes that are no character. *)
Definition width (s : string) : option nat :=
  match s with
  | EmptyString => None
  | String a r =>
      let n := code a in
      if (n <? 128)%N then Some 1
      else
        match r with
        | EmptyString => None
        | String b r2 =>
            let m := code b in
            if ((194 <=? n) && (n <=? 223))%N then
              if cont b then Some 2 else None
            else
              match r2 with
              | EmptyString => None
              | String c r3 =>
                  if ((224 <=? n) && (n <=? 239))%N then
                    if ((second_low n <=? m) && (m <=? second_high n))%N && cont c
                    then Some 3 else None
                  else
                    match r3 with
                    | EmptyString => None
                    | String d _ =>
                        if ((240 <=? n) && (n <=? 244)
                            && (second_low n <=? m) && (m <=? second_high n))%N
                           && cont c && cont d
                        then Some 4 else None
                    end
              end
        end
  end.

(** The characters of [s], each with its bytes; a byte that starts no
    character is taken alone.  No character is longer than what is left of
    [s], so the length of [s] bounds their number. *)
Fixpoint chars_upto (fuel : nat) (s : string) : list string :=
  match fuel with
  | O => []
  | S n =>
      match s with
      | EmptyString => []
      | _ =>
          let k := default 1 (width s) in
          slice_to k s :: chars_upto n (slice_from k s)
      end
  end.

Definition chars (s : string) : list string := chars_upto (String.length s) s.

(** [s] is the UTF-8 form of a text. *)
Definition well_formed (s : string) : bool :=
  forallb (fun ch => bool_decide (is_Some (width ch))) (chars s).

(** The UTF-8 form of the code point [cp]. *)
Definition utf8 (cp : N) : string :=
  string_of_list_ascii (map chr
    (if cp <? 0x80 then [cp]
     else if cp <? 0x800 then [192 + cp / 64; 128 + cp mod 64]
     else if cp <? 0x10000 then
       [224 + cp / 4096; 128 + cp / 64 mod 64; 128 + cp mod 64]
     else
       [240 + cp / 262144; 128 + cp / 4096 mod 64; 128 + cp / 64 mod 64;
        128 + cp mod 64])%N).

(** The code point of a character. *)
Definition point (ch : string) : N :=
  match map code (list_ascii_of_string ch) with
  | [a] => a
  | [a; b] => ((a - 192) * 64 + (b - 128))%N
  | [a; b; c] => ((a - 224) * 4096 + (b - 128) * 64 + (c - 128))%N
  | [a; b; c; d] =>
      ((a - 240) * 262144 + (b - 128) * 4096 + (c - 128) * 64 + (d - 128))%N
  | _ => 0%N
  end.

(** *** [strip] *)

(** The code points for which [str.isspace] holds. *)
Definition whitespace : list N :=
  [ 0x09; 0x0a; 0x0b; 0x0c; 0x0d; 0x1c; 0x1d; 0x1e; 0x1f; 0x20; 0x85; 0xa0;
    0x1680; 0x2000; 0x2001; 0x2002; 0x2003; 0x2004; 0x2005; 0x2006; 0x2007;
    0x2008; 0x2009; 0x200a; 0x2028; 0x2029; 0x202f; 0x205f; 0x3000 ]%N.

(** [ch.isspace()] for a character. *)
Definition isspace (ch : string) : bool :=
  bool_decide (ch ∈ map utf8 whitespace).

Fixpoint lstrip_chars (l : list string) : list string :=
  match l with
  | [] => []
  | ch :: r => if isspace ch then lstrip_chars r else l
  end.

Definition rstrip_chars (l : list string) : list string :=
  rev (lstrip_chars (rev l)).

(** [sep.join(l)] *)
Definition join (sep : string) (l : list string) : string := String.concat sep l.

(** [s.lstrip()], [s.rstrip()] and [s.strip()] *)
Definition lstrip (s : string) : string := join EmptyString (lstrip_chars (chars s)).
Definition rstrip (s : string) : string := join EmptyString (rstrip_chars (chars s)).
Definition strip (s : string) : string :=
  join EmptyString (rstrip_chars (lstrip_chars (chars s))).

(** *** [split] *)

(** The text before and after the first [sep], when there is one. *)
Fixpoint partition (sep : ascii) (s : string) : option (string * string) :=
  match s with
  | EmptyString => None
  | String c r =>
      if Ascii.eqb c sep then Some (EmptyString, r)
      else match partition sep r with
           | Some (a, b) => Some (String c a, b)
           | None => None
           end
  end.

(** [s.split(sep, 1)], for an ASCII separator. *)
Definition split1 (sep : ascii) (s : string) : list string :=
  match partition sep s with
  | Some (a, b) => [a; b]
  | None => [s]
  end.

(** [str(n)] for a non-negative integer. *)
Definition dec (n : nat) : string := NilZero.string_of_uint (Nat.to_uint n).

(** *** [splitlines] and the lines of a text file *)

(** The code points at which [str.splitlines] ends a line: LF, VT, FF, CR,
    FS, GS, RS, NEL, LINE SEPARATOR and PARAGRAPH SEPARATOR. *)
Definition linebreaks : list N :=
  [ 0x0a; 0x0b; 0x0c; 0x0d; 0x1c; 0x1d; 0x1e; 0x85; 0x2028; 0x2029 ]%N.

Definition islinebreak (ch : string) : bool :=
  bool_decide (ch ∈ map utf8 linebreaks).

(** [s.splitlines()] on the characters of [s]: [cur] is the line being
    read, last character first, and [after_cr] says that the previous
    character was a CR, whose LF (if it comes) belongs to the same
    boundary.  No empty line follows a final boundary. *)
Fixpoint splitlines_from (after_cr : bool) (cur l : list string) : list string :=
  match l with
  | [] =>
      match cur with
      | [] => []
      | _ => [join EmptyString (rev cur)]
      end
  | ch :: r =>
      if after_cr && String.eqb ch nl then splitlines_from false cur r
      else if islinebreak ch then
        join EmptyString (rev cur)
          :: splitlines_from (String.eqb ch (String CR EmptyString)) [] r
      else splitlines_from false (ch :: cur) r
  end.

Definition splitlines (s : string) : list string :=
  splitlines_from false [] (chars s).

(** Iterating a file opened in text mode with the default [newline=None]:
    CR, LF and CR LF all end a line and are handed over as one LF, which
    stays on the line. *)
Fixpoint text_lines_from (after_cr : bool) (cur : list ascii) (s : string)
  : list string :=
  match s with
  | EmptyString =>
      match cur with
      | [] => []
      | _ => [string_of_list_ascii (rev cur)]
      end
  | String c r =>
      if after_cr && Ascii.eqb c LF then text_lines_from false cur r
      else if Ascii.eqb c LF || Ascii.eqb c CR then
        string_of_list_ascii (rev (LF :: cur)) ::
          text_lines_from (Ascii.eqb c CR) [] r
      else text_lines_from false (c :: cur) r
  end.

Definition text_lines (s : string) : list string := text_lines_from false [] s.

(** Writing to a file opened in text mode with the default [newline=None]:
    every LF is written as the line separator of the system. *)
Fixpoint write_newlines (linesep s : string) : string :=
  match s with
  | EmptyString => EmptyString
  | String c r =>
      if Ascii.eqb c LF then linesep +:+ write_newlines linesep r
      else String c (write_newlines linesep r)
  end.

(** *** Unpacking *)

(** [len(seq)] in the messages of a failed unpacking. *)
Definition unpack_error (want got : nat) : exn :=
  if got <? want then
    Builtin Cls.ValueError
      ("not enough values to unpack (expected " +:+ dec want +:+ ", got "
         +:+ dec got +:+ ")")
  else
    Builtin Cls.ValueError
      ("too many values to unpack (expected " +:+ dec want +:+ ")").

(** [first, second = l] *)
Definition unpack2 (l : list string) : result (string * string) :=
  match l with
  | [a; b] => Ok (a, b)
  | _ => Raise (unpack_error 2 (length l))
  end.

(** [first, second, third, fourth = l] *)
Definition unpack4 (l : list string) : result (string * string * string * string) :=
  match l with
  | [a; b; c; d] => Ok (a, b, c, d)
  | _ => Raise (unpack_error 4 (length l))
  end.

(** *** [repr] of a string and of a list of strings *)

Definition hexdigit (n : N) : ascii :=
  if (n <? 10)%N then chr (48 + n) else chr (87 + n).

(** [n] in hexadecimal on [digits] digits. *)
Fixpoint hex (digits : nat) (n : N) : string :=
  match digits with
  | O => EmptyString
  | S k => hex k (n / 16)%N +:+ String (hexdigit (n mod 16)%N) EmptyString
  end.

Definition backslash : string := String (chr 92) EmptyString.

(** How [repr] writes one character between quotes [quote].  [printable]
    is [str.isprintable] on the code points from 128 on, which the Unicode
    database of the interpreter decides; below 128 the printable characters
    are those from the space to the tilde. *)
Definition repr_char (printable : N -> bool) (quote ch : string) : string :=
  match width ch with
  | None => backslash +:+ "x" +:+ hex 2 (point ch)
  | Some _ =>
      let n := point ch in
      if String.eqb ch quote || (n =? 92)%N then backslash +:+ ch
      else if (n =? 9)%N then backslash +:+ "t"
      else if (n =? 10)%N then backslash +:+ "n"
      else if (n =? 13)%N then backslash +:+ "r"
      else if (n <? 128)%N then
        if ((32 <=? n) && (n <? 127))%N then ch
        else backslash +:+ "x" +:+ hex 2 n
      else if printable n then ch
      else if (n <? 0x100)%N then backslash +:+ "x" +:+ hex 2 n
      else if (n <? 0x10000)%N then backslash +:+ "u" +:+ hex 4 n
      else backslash +:+ "U" +:+ hex 8 n
  end.

(** Every byte of [s] satisfies [p]. *)
Fixpoint all (p : ascii -> bool) (s : string) : bool :=
  match s with
  | EmptyString => true
  | String c r => p c && all p r
  end.

(** [s.isascii()] *)
Definition isascii (s : string) : bool := all (fun c => (code c <? 128)%N) s.

Fixpoint has (c : ascii) (s : string) : bool :=
  match s with
  | EmptyString => false
  | String d r => Ascii.eqb d c || has c r
  end.

(** [repr(s)]: single quotes, unless the text has a single quote and no
    double quote. *)
Definition repr (printable : N -> bool) (s : string) : string :=
  let quote :=
    String (if has (chr 39) s && negb (has (chr 34) s) then chr 34 else chr 39)
      EmptyString in
  quote +:+ join EmptyString (map (repr_char printable quote) (chars s)) +:+ quote.

(** [repr(l)] for a list of strings. *)
Definition repr_list (printable : N -> bool) (l : list string) : string :=
  "[" +:+ join ", " (map (repr printable) l) +:+ "]".

(** [needle in s] *)
Fixpoint contains (needle s : string) : bool :=
  String.prefix needle s ||
  match s with
  | EmptyString => false
  | String _ r => contains needle r
  end.
End Str.

(* ===================================================================== *)
(** ** Codecs: [bytes.decode], [str.encode] *)
(* ===================================================================== *)

Module codecs.
Import Str.

Definition isalnum (c : ascii) : bool :=
  let n := code c in
  ((48 <=? n) && (n <=? 57) || (65 <=? n) && (n <=? 90)
   || (97 <=? n) && (n <=? 122))%N.

Definition tolower (c : ascii) : ascii :=
  let n := code c in
  if ((65 <=? n) && (n <=? 90))%N then chr (n + 32) else c.

(** The codec registry's normalisation of an encoding name: letters are
    lowered, every run of characters that are neither alphanumeric nor a
    dot becomes one underscore, and such runs at either end are dropped.
    [punct] says that a run is pending, [started] that something was
    already written. *)
Fixpoint normalize_from (punct started : bool) (s : string) : string :=
  match s with
  | EmptyString => EmptyString
  | String c r =>
      if isalnum c || Ascii.eqb c "." then
        let rest := String (tolower c) (normalize_from false true r) in
        if punct && started then String "_" rest else rest
      else normalize_from true started r
  end.

Definition normalize_encoding (name : string) : string :=
  normalize_from false false name.

Inductive codec := utf_8.

(** The names under which the registry finds the UTF-8 codec; the other
    codecs of the standard library are not part of the embedding. *)
Definition lookup (name : string) : option codec :=
  if bool_decide (normalize_encoding name ∈
                    ["utf_8"; "utf8"; "u8"; "utf"; "utf8_ucs2"; "utf8_ucs4";
                     "cp65001"])
  then Some utf_8 else None.

(** UTF-8 decoding: the bytes are the text when they are well-formed, and
    a [UnicodeDecodeError] is raised when they are not. *)
Definition utf8_decode (bs : bytes) : result string :=
  let s := string_of_list_byte bs in
  if well_formed s then Ok s
  else Raise (Builtin Cls.UnicodeDecodeError "utf-8").

(** UTF-8 encoding of a text: its bytes. *)
Definition utf8_encode (s : string) : bytes := list_byte_of_string s.

(** [b.decode(encoding)] *)
Definition decode (b : bytes) (encoding : string) : result string :=
  match lookup encoding with
  | Some utf_8 => utf8_decode b
  | None => Raise (Builtin Cls.LookupError ("unknown encoding: " +:+ encoding))
  end.

(** [s.encode('ascii')], as [base64] uses it on a [str] argument. *)
Fixpoint ascii_encode (s : string) : result bytes :=
  match s with
  | EmptyString => Ok []
  | String c r =>
      if (code c <? 128)%N then bs ← ascii_encode r; Ok (byte_of_ascii c :: bs)
      else Raise (Builtin Cls.ValueError
                    "string argument should contain only ASCII characters")
  end.
End codecs.

(* ===================================================================== *)
(** ** [base64.standard_b64encode] and [base64.standard_b64decode] *)
(* ===================================================================== *)

Module base64.
Local Open Scope N_scope.

Definition alphabet : bytes :=
  list_byte_of_string
    "ABCDEFGHIJKLMNOPQRSTUVWXYZabcdefghijklmnopqrstuvwxyz0123456789+/".

Definition pad : byte := "="%byte.

Definition b2a (n : N) : byte := nth (N.to_nat n) alphabet pad.

(** [binascii.b2a_base64(s, newline=False)] *)
Fixpoint b64encode (s : bytes) : bytes :=
  match s with
  | [] => []
  | [x] =>
      let a := Byte.to_N x in
      [b2a (a / 4); b2a (a mod 4 * 16); pad; pad]
  | [x; y] =>
      let a := Byte.to_N x in
      let b := Byte.to_N y in
      [b2a (a / 4); b2a (a mod 4 * 16 + b / 16); b2a (b mod 16 * 4); pad]
  | x :: y :: z :: rest =>
      let a := Byte.to_N x in
      let b := Byte.to_N y in
      let c := Byte.to_N z in
      b2a (a / 4) :: b2a (a mod 4 * 16 + b / 16)
        :: b2a (b mod 16 * 4 + c / 64) :: b2a (c mod 64) :: b64encode rest
  end.

(** The decoding table: the value of an alphabet character. *)
Definition a2b (ch : byte) : option N :=
  let n := Byte.to_N ch in
  if (65 <=? n) && (n <=? 90) then Some (n - 65)
  else if (97 <=? n) && (n <=? 122) then Some (n - 71)
  else if (48 <=? n) && (n <=? 57) then Some (n + 4)
  else if n =? 43 then Some 62
  else if n =? 47 then Some 63
  else None.

Definition byte_of (n : N) : byte := default x00 (Byte.of_N (n mod 256)).

(** [binascii.a2b_base64(s)] without strict mode.  [quad_pos] is the
    position in the current group of four, [leftchar] the bits not yet
    written, [pads] the padding characters seen since the last data
    character, [out] the output so far, last byte first.  A character
    outside the alphabet is skipped; padding that completes a group ends
    the decoding, whatever follows. *)
Fixpoint a2b_base64 (quad_pos leftchar pads : N) (out : bytes) (s : bytes)
  : result bytes :=
  match s with
  | [] =>
      if quad_pos =? 0 then Ok (rev out)
      else if quad_pos =? 1 then
        Raise (Builtin Cls.binascii_Error
                 ("Invalid base64-encoded string: number of data characters ("
                    +:+ Str.dec (length out / 3 * 4 + 1)
                    +:+ ") cannot be 1 more than a multiple of 4"))
      else Raise (Builtin Cls.binascii_Error "Incorrect padding")
  | ch :: r =>
      if Byte.eqb ch pad then
        if 2 <=? quad_pos then
          if 4 <=? quad_pos + (pads + 1) then Ok (rev out)
          else a2b_base64 quad_pos leftchar (pads + 1) out r
        else a2b_base64 quad_pos leftchar pads out r
      else
        match a2b ch with
        | None => a2b_base64 quad_pos leftchar pads out r
        | Some v =>
            if quad_pos =? 0 then a2b_base64 1 v 0 out r
            else if quad_pos =? 1 then
              a2b_base64 2 (v mod 16) 0 (byte_of (leftchar * 4 + v / 16) :: out) r
            else if quad_pos =? 2 then
              a2b_base64 3 (v mod 4) 0 (byte_of (leftchar * 16 + v / 4) :: out) r
            else
              a2b_base64 0 0 0 (byte_of (leftchar * 64 + v) :: out) r
        end
  end.

(** [standard_b64decode(s)] for a [str] argument. *)
Definition b64decode (s : string) : result bytes :=
  bs ← codecs.ascii_encode s; a2b_base64 0 0 0 [] bs.
End base64.

(* ===================================================================== *)
(** ** [hashlib] *)
(* ===================================================================== *)

(** What the module uses of [hashlib]: the set of algorithm names, and for
    each name the digest size, whether [digest()] needs a length (the
    algorithms SHAKE, of variable length, whose [digest_size] is 0) and the
    digest of a message. *)
Record Hashlib := {
  algorithms_available : list string;
  digest_size : string -> nat;
  needs_length : string -> bool;
  hash : string -> bytes -> bytes
}.

(** A hash object.  Feeding it chunk after chunk is the same as feeding it
    their concatenation, so it is represented by what it was fed. *)
Module hasher.
Record t := { name : string; fed : bytes }.
Definition new (algorithm : string) : t := {| name := algorithm; fed := [] |}.
Definition update (h : t) (buffer : bytes) : t :=
  {| name := name h; fed := fed h ++ buffer |}.

(** [h.digest()], without an argument. *)
Definition digest (hl : Hashlib) (h : t) : result bytes :=
  if needs_length hl (name h) then
    Raise (Builtin Cls.TypeError
             "digest() missing required argument 'length' (pos 1)")
  else Ok (hash hl (name h) (fed h)).
End hasher.

(** SHA-256 (FIPS 180-4) on 32-bit words, the algorithm of the manifests in
    the module's tests. *)
Module sha256.
Local Open Scope N_scope.

Definition w32 (x : N) : N := x mod 2 ^ 32.
Definition add32 (x y : N) : N := w32 (x + y).
Definition rotr (n x : N) : N :=
  N.lor (N.shiftr x n) (w32 (N.shiftl x (32 - n))).
Definition Ch (x y z : N) : N :=
  N.lxor (N.land x y) (N.land (N.lxor x 0xffffffff) z).
Definition Maj (x y z : N) : N :=
  N.lxor (N.lxor (N.land x y) (N.land x z)) (N.land y z).
Definition Sigma0 (x : N) : N := N.lxor (N.lxor (rotr 2 x) (rotr 13 x)) (rotr 22 x).
Definition Sigma1 (x : N) : N := N.lxor (N.lxor (rotr 6 x) (rotr 11 x)) (rotr 25 x).
Definition sigma0 (x : N) : N := N.lxor (N.lxor (rotr 7 x) (rotr 18 x)) (N.shiftr x 3).
Definition sigma1 (x : N) : N := N.lxor (N.lxor (rotr 17 x) (rotr 19 x)) (N.shiftr x 10).

(** The largest [r] below [2 ^ bits] whose cube is at most [n], found bit
    by bit from the top. *)
Fixpoint cbrt_bits (bits : nat) (n r : N) : N :=
match bits with
| O => r
| S i =>
    let r' := r + 2 ^ N.of_nat i in
    cbrt_bits i n (if r' * r' * r' <=? n then r' else r)
end.

Definition is_prime (p : nat) : bool :=
forallb (fun d => negb (p mod d =? 0)%nat) (seq 2 (p - 2)).

Definition primes : list N := Eval vm_compute in
  map N.of_nat (filter (fun p => is_prime p) (seq 2 310)).

(** The round constants: the first 32 bits of the fractional parts of the
    cube roots of the first 64 primes. *)
Definition K : list N := Eval vm_compute in
  map (fun p => w32 (cbrt_bits 36 (p * 2 ^ 96) 0)) primes.

(** The initial hash value: the same of the square roots of the first 8
    primes. *)
Definition H0 : list N := Eval vm_compute in
  map (fun p => w32 (N.sqrt (p * 2 ^ 64))) (firstn 8 primes).

(** [x] on [n] bytes, most significant first. *)
Definition be_bytes (n : nat) (x : N) : list N :=
  map (fun i => N.shiftr x (8 * N.of_nat i) mod 256) (rev (seq 0 n)).

(** Padding: a 1 bit, zeros up to 56 modulo 64 bytes, the bit length. *)
Definition padded (msg : list N) : list N :=
  let len := length msg in
  let zeros := ((64 - (len + 9) mod 64) mod 64)%nat in
  msg ++ [0x80] ++ repeat 0 zeros ++ be_bytes 8 (8 * N.of_nat len).

Fixpoint words (fuel : nat) (bs : list N) : list N :=
  match fuel, bs with
  | S f, a :: b :: c :: d :: rest =>
      (N.shiftl a 24 + N.shiftl b 16 + N.shiftl c 8 + d) :: words f rest
  | _, _ => []
  end.

(** The message schedule, newest word first. *)
Fixpoint schedule (n : nat) (w : list N) : list N :=
  match n with
  | O => w
  | S n' =>
      let next := add32 (add32 (sigma1 (nth 1 w 0)) (nth 6 w 0))
                        (add32 (sigma0 (nth 14 w 0)) (nth 15 w 0)) in
      schedule n' (next :: w)
  end.

Definition round (st : list N) (kw : N * N) : list N :=
  match st with
  | [a; b; c; d; e; f; g; h] =>
      let t1 := add32 (add32 (add32 h (Sigma1 e)) (add32 (Ch e f g) (fst kw)))
                      (snd kw) in
      let t2 := add32 (Sigma0 a) (Maj a b c) in
      [add32 t1 t2; a; b; c; add32 d t1; e; f; g]
  | _ => st
  end.

Definition compress (st block : list N) : list N :=
  let w := rev (schedule 48 (rev block)) in
  let st' := fold_left round (combine K w) st in
  map (fun p => add32 (fst p) (snd p)) (combine st st').

Fixpoint blocks (fuel : nat) (st ws : list N) : list N :=
  match fuel with
  | O => st
  | S f =>
      match ws with
      | [] => st
      | _ => blocks f (compress st (firstn 16 ws)) (skipn 16 ws)
      end
  end.

Definition digest (msg : bytes) : bytes :=
  let p := padded (map Byte.to_N msg) in
  let ws := words (length p) p in
  map base64.byte_of (flat_map (be_bytes 4) (blocks (length ws) H0 ws)).
End sha256.

(* ===================================================================== *)
(** ** The surroundings: file system and runtime *)
(* ===================================================================== *)

Module stat.
Definition S_IRUSR : Z := 0x100.   (* 0o400 *)
Definition S_IWUSR : Z := 0x80.    (* 0o200 *)
Definition S_IXUSR : Z := 0x40.    (* 0o100 *)
End stat.

Record File := { content : bytes; mode : Z }.

(** The files, each under the name that stands for it (see [joinpath]
    below), and the directories made so far. *)
Record World := { fs : gmap string File; dirs : gset string }.

(** The system calls of the module. *)
Inductive fs_op :=
| Mkdir (path : string)
| OpenW (path : string)
| OpenR (path : string)
| Write (path : string) (buffer : bytes)
| Chmod (path : string) (mode : Z).

(** The reasons for which the system refuses a call, with the class of the
    [OSError] that Python raises for each. *)
Module errno.
Inductive t := EACCES | ENOENT | EISDIR | ENOTDIR | EEXIST | ENOSPC | EIO.

Definition cls (e : t) : Cls.t :=
  match e with
  | EACCES => Cls.PermissionError
  | ENOENT => Cls.FileNotFoundError
  | EISDIR => Cls.IsADirectoryError
  | ENOTDIR => Cls.NotADirectoryError
  | EEXIST => Cls.FileExistsError
  | ENOSPC | EIO => Cls.OSError
  end.
End errno.

(** What the module reads from the interpreter and its libraries.
    - [urlparse] gives the scheme and the network location of a URL, or
      raises; [urlopen] gives the body served at a URL, or raises.
    - [PurePath s] is [str(PurePath(s))].  [joinpath a b] stands for the
      file that the path [Path(a) / b] names: two paths that the file
      system resolves to one file (through [..], [.] or a link) have one
      [joinpath], which is the key of the file in the [World].
    - [environment_dir] is [lang_base.environment_dir]; [create_mode] gives
      the permission bits of a newly created file; [linesep] is
      [os.linesep]; [isprintable] is [str.isprintable] on a code point from
      128 on.
    - [refuses w op] is the reason for which the system refuses the call
      [op] in the world [w], if it does: permissions, a missing or
      misplaced directory, a full disk. *)
Record Runtime := {
  hashlib : Hashlib;
  platform_system : string;
  platform_machine : string;
  urlparse : string -> result (string * string);
  urlopen : string -> result bytes;
  PurePath : string -> string;
  joinpath : string -> string -> string;
  environment_dir : string -> string -> string -> string;
  create_mode : Z;
  linesep : string;
  isprintable : N -> bool;
  refuses : World -> fs_op -> option errno.t
}.

(** A computation on the file system: its result, or the exception it
    raised, and the world it leaves in either case. *)
Definition M (A : Type) : Type := World -> result A * World.

#[global] Instance M_ret : MRet M := fun _ a w => (Ok a, w).
#[global] Instance M_bind : MBind M := fun _ _ k m w =>
  match m w with
  | (Ok a, w') => k a w'
  | (Raise e, w') => (Raise e, w')
  end.

Definition lift {A} (r : result A) : M A := fun w => (r, w).
Definition raise {A} (e : exn) : M A := fun w => (Raise e, w).

(** File operations.  Each is a system call: it raises the [OSError] of
    the refusal when the system refuses it, and has its effect when not. *)
Module os.
Definition path_of (op : fs_op) : string :=
  match op with
  | Mkdir p | OpenW p | OpenR p | Write p _ | Chmod p _ => p
  end.

Definition error (e : errno.t) (path : string) : exn :=
  Builtin (errno.cls e) path.

Definition call {A} (rt : Runtime) (op : fs_op) (effect : M A) : M A := fun w =>
  match refuses rt w op with
  | Some e => (Raise (error e (path_of op)), w)
  | None => effect w
  end.

(** [path.mkdir(parents=True, exist_ok=True)] *)
Definition mkdir (rt : Runtime) (path : string) : M unit :=
  call rt (Mkdir path) (fun w =>
    (Ok tt, {| fs := fs w; dirs := {[path]} ∪ dirs w |})).

(** [path.open('wb')] and [path.open('w')]: the file is created with the
    default permission bits, or truncated keeping its own. *)
Definition open_w (rt : Runtime) (path : string) : M unit :=
  call rt (OpenW path) (fun w =>
    let m := match fs w !! path with
             | Some f => mode f
             | None => create_mode rt
             end in
    (Ok tt, {| fs := <[path := {| content := []; mode := m |}]> (fs w);
               dirs := dirs w |})).

(** [fp.write(buffer)] on a file opened at [path]. *)
Definition write (rt : Runtime) (path : string) (buffer : bytes) : M unit :=
  call rt (Write path buffer) (fun w =>
    (Ok tt,
     {| fs := alter (fun f => {| content := content f ++ buffer; mode := mode f |})
                path (fs w);
        dirs := dirs w |})).

(** [chmod(path, mode)] *)
Definition chmod (rt : Runtime) (path : string) (m : Z) : M unit :=
  call rt (Chmod path m) (fun w =>
    match fs w !! path with
    | Some f =>
        (Ok tt, {| fs := <[path := {| content := content f; mode := m |}]> (fs w);
                   dirs := dirs w |})
    | None => (Raise (error errno.ENOENT path), w)
    end).

(** [path.open('rb')], giving what is left to read. *)
Definition open_rb (rt : Runtime) (path : string) : M bytes :=
  call rt (OpenR path) (fun w =>
    match fs w !! path with
    | Some f => (Ok (content f), w)
    | None => (Raise (error errno.ENOENT path), w)
    end).

(** [path.open(encoding='utf8')], giving the text left to read.  The whole
    file is decoded at once, as for a file within one read-ahead. *)
Definition open_r (rt : Runtime) (path : string) : M string :=
  b ← open_rb rt path; lift (codecs.utf8_decode b).
End os.

(** The protocol [HasBinaryRead]: [read(size)] gives a chunk, or [None],
    and moves the source on. *)
Class HasBinaryRead (IO : Type) := read : IO -> Z -> option bytes * IO.

(** An in-memory binary stream: the bytes still to be read.  [read(n)] takes
    up to [n] of them, and all of them when [n] is negative. *)
#[global] Instance bytes_read : HasBinaryRead bytes := fun s n =>
  if (n <? 0)%Z then (Some s, [])
  else (Some (take (Z.to_nat n) s), drop (Z.to_nat n) s).

(** Truth value of [bytes | None]. *)
Definition truthy (buffer : option bytes) : bool :=
  match buffer with
  | Some (_ :: _) => true
  | _ => false
  end.

(* ===================================================================== *)
(** ** [download.py] *)
(* ===================================================================== *)

Definition ENVIRONMENT_DIR : string := "download".
Definition IO_BUF_SIZE : Z := 4096.

(** *** [class Platform] *)
Module Platform.
(** The two read-only mappings, in the order of the source. *)
Definition OS : list (string * string) :=
  [ ("Linux", "linux"); ("Darwin", "darwin"); ("Windows", "windows");
    ("DragonFly", "dragonfly"); ("FreeBSD", "freebsd") ].

Definition CPU : list (string * string) :=
  [ ("aarch64", "arm64"); ("aarch64_be", "arm64be"); ("arm", "arm");
    ("i386", "386"); ("i686", "386"); ("x86_64", "amd64");
    ("AMD64", "amd64"); ("ppc", "ppc"); ("ppc64", "ppc64");
    ("ppc64le", "ppc64le") ].

Definition keys (m : list (string * string)) : list string := map fst m.
Definition values (m : list (string * string)) : list string := map snd m.

(** [m[key]]: the value, or [KeyError(key)]. *)
Definition getitem (m : list (string * string)) (key : string) : result string :=
  match find (fun kv => String.eqb (fst kv) key) m with
  | Some kv => Ok (snd kv)
  | None => Raise (Builtin Cls.KeyError key)
  end.

Record t := { value : string }.

Definition parts (self : t) : result (string * string) :=
  Str.unpack2 (Str.split1 "/" (value self)).

Definition os (self : t) : result string := '(os, _) ← parts self; Ok os.
Definition cpu (self : t) : result string := '(_, cpu) ← parts self; Ok cpu.

Definition init (v : string) : result t :=
  let self := {| value := v |} in
  '(os, cpu) ← parts self;
  if negb (bool_decide (os ∈ values OS)) then
    Raise (Builtin Cls.ValueError
             ("invalid operating system `" +:+ os +:+ "`, valid values are: "
                +:+ Str.join "," (values OS)))
  else if negb (bool_decide (cpu ∈ values CPU)) then
    Raise (Builtin Cls.ValueError
             ("invalid CPU `" +:+ cpu +:+ "`, valid values are: "
                +:+ Str.join "," (values CPU)))
  else Ok self.

Definition host (rt : Runtime) : result t :=
  os ← getitem OS (platform_system rt);
  cpu ← getitem CPU (platform_machine rt);
  init (os +:+ "/" +:+ cpu).

Definition str (self : t) : result string :=
  os ← os self; cpu ← cpu self; Ok (os +:+ "/" +:+ cpu).

(** [self == other], for another [Platform]. *)
Definition eq (self other : t) : result bool :=
  oos ← os other; sos ← os self;
  if String.eqb oos sos then
    ocpu ← cpu other; scpu ← cpu self; Ok (String.eqb ocpu scpu)
  else Ok false.
End Platform.

(** [str(err)] for a [ChecksumMismatchError]. *)
Definition ChecksumMismatchError_str (self : ChecksumMismatchError) : string :=
  message self +:+ ":" +:+ Str.nl
    +:+ " - expected: " +:+ expected self +:+ Str.nl
    +:+ " - actual  : " +:+ actual self +:+ Str.nl.

(** *** [class SRI] *)
Module SRI.
Record t := { value : string; algorithm : string; checksum : string }.

Definition init (rt : Runtime) (v : string) : result t :=
  '(algorithm, checksum) ← Str.unpack2 (Str.split1 "-" v);
  let self := {| value := v; algorithm := algorithm; checksum := checksum |} in
  if negb (bool_decide (algorithm ∈ algorithms_available (hashlib rt))) then
    Raise (Builtin Cls.ValueError
             ("`" +:+ algorithm +:+ "` is not available, choose one of: "
                +:+ Str.join "," (algorithms_available (hashlib rt)) +:+ "`"))
  else
    decoded ← base64.b64decode checksum;
    encoded ← codecs.decode (base64.b64encode decoded) "utf-8";
    if negb (String.eqb encoded checksum) then
      Raise (Builtin Cls.ValueError
               "Invalid checksum string, the checksum string has to be encoded in base64.")
    else
      let hasher := hasher.new algorithm in
      decoded ← base64.b64decode checksum;
      let checksum_len := length decoded in
      let size := digest_size (hashlib rt) (hasher.name hasher) in
      if negb (checksum_len =? size) then
        Raise (Builtin Cls.ValueError
                 ("Invalid checksum string length of " +:+ Str.dec checksum_len
                    +:+ " for " +:+ algorithm +:+ ", expected " +:+ Str.dec size))
      else Ok self.

Definition str (self : t) : string := value self.

(** The generator made by [check].  Its frame holds the locals of the
    call; a generator is suspended on a frame or has finished. *)
Record frame (IO : Type) := {
  self : t;
  hasher_ : hasher.t;
  io : IO;
  chunk : Z
}.
Arguments self {IO} _.
Arguments hasher_ {IO} _.
Arguments io {IO} _.
Arguments chunk {IO} _.

Inductive generator (IO : Type) :=
| Suspended (f : frame IO)
| Finished.
Arguments Suspended {IO} f.
Arguments Finished {IO}.

(** What [next] gives: a yielded chunk, the end, or an exception. *)
Inductive signal :=
| Yield (buffer : bytes)
| StopIteration
| Throw (e : exn).

(** The default of the parameter [chunk] of [check]. *)
Definition default_chunk : Z := 4096.

(** [self.check(io, chunk)].  Nothing runs before the first [next];
    making the hash object has no effect to delay. *)
Definition check {IO} (self : t) (io : IO) (chunk : Z) : generator IO :=
  Suspended {| self := self; hasher_ := hasher.new (algorithm self);
               io := io; chunk := chunk |}.

(** One [next]: one turn of the [while] loop up to its [yield], or the
    code after the loop, where a [raise] ends the generator with the
    exception and the end of the body ends it with [StopIteration]. *)
Definition next {IO} `{HasBinaryRead IO} (hl : Hashlib) (g : generator IO)
  : signal * generator IO :=
  match g with
  | Finished => (StopIteration, Finished)
  | Suspended f =>
      let (buffer, io') := read (io f) (chunk f) in
      if truthy buffer then
        let buffer := default [] buffer in
        (Yield buffer,
         Suspended {| self := self f; hasher_ := hasher.update (hasher_ f) buffer;
                      io := io'; chunk := chunk f |})
      else
        let after_loop : result unit :=
          d ← hasher.digest hl (hasher_ f);
          digest ← codecs.decode (base64.b64encode d) "utf-8)";
          if negb (String.eqb digest (checksum (self f))) then
            Raise (Mismatch {| expected := checksum (self f);
                               actual := digest;
                               message := "checksum mismatch" |})
          else Ok tt in
        match after_loop with
        | Ok _ => (StopIteration, Finished)
        | Raise e => (Throw e, Finished)
        end
  end.
End SRI.

(** [for buffer in g: body(buffer)], for at most [fuel] calls of [next];
    [None] when they do not reach the end of the generator. *)
Fixpoint for_in {IO} `{HasBinaryRead IO} (hl : Hashlib) (fuel : nat)
    (g : SRI.generator IO) (body : bytes -> M unit) (w : World)
  : option (result unit * World) :=
  match fuel with
  | O => None
  | S n =>
      match SRI.next hl g with
      | (SRI.Yield buffer, g') =>
          match body buffer w with
          | (Ok _, w') => for_in hl n g' body w'
          | (Raise e, w') => Some (Raise e, w')
          end
      | (SRI.StopIteration, _) => Some (Ok tt, w)
      | (SRI.Throw e, _) => Some (Raise e, w)
      end
  end.

(** The calls of [next] an in-memory stream can take: every chunk but the
    last is not empty. *)
Definition calls (g : SRI.generator bytes) : nat :=
  match g with
  | SRI.Suspended f => S (length (SRI.io f))
  | SRI.Finished => 1
  end.

(** The loop over an in-memory stream, which ends within [calls g] calls of
    [next]: the second branch is not taken when the chunk size is not zero,
    as in every call of the module ([for_in_stream_total]). *)
Definition for_in_stream (hl : Hashlib) (g : SRI.generator bytes)
    (body : bytes -> M unit) : M unit := fun w =>
  match for_in hl (calls g) g body w with
  | Some r => r
  | None => (Raise (Builtin Cls.BaseException "iteration without end"), w)
  end.

(** *** [class URI] *)
Module URI.
Record t := { value : string }.

Definition init (rt : Runtime) (v : string) : result t :=
  '(scheme, netloc) ← urlparse rt v;
  if negb (negb (String.eqb scheme EmptyString)
           && negb (String.eqb netloc EmptyString)) then
    Raise (Builtin Cls.ValueError ("Invalid URI: " +:+ v))
  else Ok {| value := v |}.

Definition str (self : t) : string := value self.
End URI.

(** *** [class Metadata] *)
Module Metadata.
Record t := { value : string }.

Definition parts (self : t) : result (string * string * string * string) :=
  Str.unpack4 (Str.splitlines (value self)).

Definition platform (self : t) : result Platform.t :=
  '(platform, _, _, _) ← parts self; Platform.init platform.

Definition sri (rt : Runtime) (self : t) : result SRI.t :=
  '(_, sri, _, _) ← parts self; SRI.init rt sri.

Definition uri (rt : Runtime) (self : t) : result URI.t :=
  '(_, _, uri, _) ← parts self; URI.init rt uri.

Definition filename (rt : Runtime) (self : t) : result string :=
  '(_, _, _, path) ← parts self; Ok (PurePath rt path).
End Metadata.

Section download.
Variable rt : Runtime.

Definition download (uri : URI.t) (sri : SRI.t) (filename : string) : M unit :=
  ws ← lift (urlopen rt (URI.str uri));
  os.open_w rt filename;;
  for_in_stream (hashlib rt) (SRI.check sri ws SRI.default_chunk)
    (fun buffer => os.write rt filename buffer);;
  os.chmod rt filename (Z.lor stat.S_IRUSR stat.S_IXUSR).

Definition envdir_of (prefix version : string) : string :=
  PurePath rt (environment_dir rt prefix ENVIRONMENT_DIR version).

(** The body of the [if host == m.platform:] branch. *)
Definition install_entry (prefix version : string) (m : Metadata.t) : M unit :=
  let envdir := envdir_of prefix version in
  os.mkdir rt envdir;;
  filename ← lift (Metadata.filename rt m);
  uri ← lift (Metadata.uri rt m);
  sri ← lift (Metadata.sri rt m);
  download uri sri (joinpath rt envdir filename);;
  let srisum := joinpath rt envdir "health.srisum" in
  os.open_w rt srisum;;
  sri ← lift (Metadata.sri rt m);
  os.write rt srisum
    (codecs.utf8_encode
       (Str.write_newlines (linesep rt)
          (SRI.str sri +:+ "  " +:+ filename +:+ Str.nl))).

(** The [for dep in additional_dependencies:] loop and the [raise] after
    it; [deps] is what is left to scan. *)
Fixpoint install_scan (host : Platform.t) (prefix version : string)
    (additional_dependencies deps : list string) : M unit :=
  match deps with
  | [] =>
      h ← lift (Platform.str host);
      raise (Builtin Cls.KeyError
               ("Failed to find platform `" +:+ h
                  +:+ "` in `additional_dependencies`: "
                  +:+ Str.repr_list (isprintable rt) additional_dependencies))
  | dep :: rest =>
      let m := {| Metadata.value := dep |} in
      p ← lift (Metadata.platform m);
      same ← lift (Platform.eq host p);
      if (same : bool) then install_entry prefix version m
      else install_scan host prefix version additional_dependencies rest
  end.

Definition install_environment (prefix version : string)
    (additional_dependencies : list string) : M unit :=
  host ← lift (Platform.host rt);
  install_scan host prefix version additional_dependencies
    additional_dependencies.

(** The [try] statement of [health_check]: the file is read to its end
    through the check, and a [ChecksumMismatchError] is caught. *)
Definition try_check (sri : SRI.t) (fp : bytes)
  : M (option ChecksumMismatchError) := fun w =>
  match for_in_stream (hashlib rt) (SRI.check sri fp SRI.default_chunk)
          (fun _ => mret tt) w with
  | (Raise (Mismatch err), w') => (Ok (Some err), w')
  | (Raise e, w') => (Raise e, w')
  | (Ok _, w') => (Ok None, w')
  end.

(** The [for line in stream:] loop of [health_check] and the [return None]
    after it. *)
Fixpoint health_check_lines (envdir : string) (lines : list string)
  : M (option string) :=
  match lines with
  | [] => mret None
  | line :: rest =>
      '(sri_str, filepath) ← lift (Str.unpack2 (Str.split1 " " (Str.strip line)));
      let sri_str := Str.strip sri_str in
      let filepath := Str.strip filepath in
      let filename := joinpath rt envdir filepath in
      sri ← lift (SRI.init rt sri_str);
      fp ← os.open_rb rt filename;
      caught ← try_check sri fp;
      match caught with
      | Some err =>
          mret (Some (filepath +:+ " " +:+ ChecksumMismatchError_str err
                        +:+ "Please reinstall the Download environment"))
      | None => health_check_lines envdir rest
      end
  end.

Definition health_check (prefix version : string) : M (option string) :=
  let envdir := envdir_of prefix version in
  let srisum := joinpath rt envdir "health.srisum" in
  stream ← os.open_r rt srisum;
  health_check_lines envdir (Str.text_lines stream).
End download.

(* ===================================================================== *)
(** ** A concrete runtime: the set-up of the module's tests *)
(* ===================================================================== *)

(** [pathlib] on a POSIX host: a path is its root and its components; empty
    and [.] components are dropped, two leading slashes are kept. *)
Module posix.
Fixpoint split_from (cur : list ascii) (s : string) : list string :=
  match s with
  | EmptyString => [string_of_list_ascii (rev cur)]
  | String c r =>
      if Ascii.eqb c "/" then string_of_list_ascii (rev cur) :: split_from [] r
      else split_from (c :: cur) r
  end.

Definition components (s : string) : list string :=
  filter (fun c => c ≠ EmptyString ∧ c ≠ ".") (split_from [] s).

Definition root (s : string) : string :=
  match s with
  | String "/" (String "/" (String "/" _)) => "/"
  | String "/" (String "/" _) => "//"
  | String "/" _ => "/"
  | _ => EmptyString
  end.

Definition render (r : string) (cs : list string) : string :=
  match r, cs with
  | EmptyString, [] => "."
  | _, _ => r +:+ Str.join "/" cs
  end.

Definition PurePath (s : string) : string := render (root s) (components s).

(** [str(PurePath(a) / b)] *)
Definition joinpath (a b : string) : string :=
  match root b with
  | EmptyString => render (root a) (components a ++ components b)
  | _ => PurePath b
  end.

(** The components the file system is left with once it has followed
    every [..], in a tree without links: [..] leads back over the component
    before it, stays at the root, and is kept at the head of a relative
    path.  [seen] is what was kept so far, last component first. *)
Fixpoint follow (rooted : bool) (seen cs : list string) : list string :=
  match cs with
  | [] => rev seen
  | c :: r =>
      if String.eqb c ".." then
        match seen with
        | d :: ds =>
            if String.eqb d ".." then follow rooted (c :: seen) r
            else follow rooted ds r
        | [] => if rooted then follow rooted [] r else follow rooted [c] r
        end
      else follow rooted (c :: seen) r
  end.

(** The path of the file that [s] names, in a tree without links. *)
Definition resolve (s : string) : string :=
  render (root s)
    (follow (negb (String.eqb (root s) EmptyString)) [] (components s)).

(** The file that [Path(a) / b] names. *)
Definition locate (a b : string) : string := resolve (joinpath a b).

(** The directory a path lies in. *)
Definition parent (s : string) : string :=
  render (root s) (removelast (components s)).

(** [a] is [d] or a directory above it. *)
Definition above (a d : string) : bool :=
  String.eqb (root a) (root d)
  && bool_decide (components a `prefix_of` components d).
End posix.

(** [urllib.parse.urlsplit], as far as the scheme and the network location
    go, on a URL whose network location has no bracketed host (the address
    in brackets is not examined) and is in ASCII (no normalisation is
    done). *)
Module urllib.
Definition isalpha (c : ascii) : bool :=
  let n := Str.code c in
  ((65 <=? n) && (n <=? 90) || (97 <=? n) && (n <=? 122))%N.

(** The characters of [scheme_chars]. *)
Definition scheme_char (c : ascii) : bool :=
  codecs.isalnum c || Ascii.eqb c "+" || Ascii.eqb c "-" || Ascii.eqb c ".".

Fixpoint lower (s : string) : string :=
  match s with
  | EmptyString => EmptyString
  | String c r => String (codecs.tolower c) (lower r)
  end.

(** [url.lstrip(_WHATWG_C0_CONTROL_OR_SPACE)] *)
Fixpoint lstrip_c0 (s : string) : string :=
  match s with
  | EmptyString => EmptyString
  | String c r => if (Str.code c <=? 32)%N then lstrip_c0 r else s
  end.

(** The removal of tabs, carriage returns and line feeds. *)
Fixpoint remove_unsafe (s : string) : string :=
  match s with
  | EmptyString => EmptyString
  | String c r =>
      if bool_decide (Str.code c ∈ [9; 10; 13]%N) then remove_unsafe r
      else String c (remove_unsafe r)
  end.

(** [_splitnetloc(url, 2)]: the text up to the first of [/], [?], [#]. *)
Fixpoint netloc_of (s : string) : string :=
  match s with
  | EmptyString => EmptyString
  | String c r =>
      if Ascii.eqb c "/" || Ascii.eqb c "?" || Ascii.eqb c "#" then EmptyString
      else String c (netloc_of r)
  end.

Definition urlsplit (url : string) : result (string * string) :=
  let url := remove_unsafe (lstrip_c0 url) in
  let '(scheme, url) :=
    match Str.partition ":" url with
    | Some (String c _ as head, rest) =>
        if isalpha c && Str.all scheme_char head then (lower head, rest)
        else (EmptyString, url)
    | _ => (EmptyString, url)
    end in
  match url with
  | String "/" (String "/" rest) =>
      let netloc := netloc_of rest in
      if xorb (Str.has "[" netloc) (Str.has "]" netloc) then
        Raise (Builtin Cls.ValueError "Invalid IPv6 URL")
      else Ok (scheme, netloc)
  | _ => Ok (scheme, EmptyString)
  end.
End urllib.

Module testbed.
Definition shellscript : bytes :=
  list_byte_of_string
    ("#!/bin/sh" +:+ Str.nl +:+ "echo hello" +:+ Str.nl +:+ "exit 123").
Definition shell_checksum : string :=
  "oRJkj6Cr8nWIivZ9d3W+rVZt/aSW1l9YtxSVh+GtIHM=".
Definition batch_checksum : string :=
  "L63Nefq+fKVIm24IKqlcqbJmc1rrJD3dKhIvutFK+IA=".

Definition entry (platform sri uri filename : string) : string :=
  platform +:+ Str.nl +:+ sri +:+ Str.nl +:+ uri +:+ Str.nl +:+ filename.

Definition healthy_dependencies : list string :=
  [ entry "linux/amd64" ("sha256-" +:+ shell_checksum) "http://127.0.0.1:5555" "test.bat";
    entry "windows/amd64" ("sha256-" +:+ batch_checksum) "http://127.0.0.1:5555" "test.bat" ].

Definition deps_invalid_length : list string :=
  [ entry "linux/amd64" "sha256-xxxxxxxxxxxxxxxxxxxxxxxxxxxxxxxxxxxxxxxxxxxx"
      "http://127.0.0.1:5555" "test.bat";
    entry "windows/amd64" "sha256-xxxxxxxxxxxxxxxxxxxxxxxxxxxxxxxxxxxxxxxxxxxx"
      "http://127.0.0.1:5555" "test.bat" ].

Definition deps_wrong_checksum : list string :=
  [ entry "linux/amd64" "sha256-oRJkj6Cr8nWIivZ9d4W+rVZt/aSW1l9YtxSVh+GtIHM="
      "http://127.0.0.1:5555" "test.bat";
    entry "windows/amd64" "sha256-L63Nefq+fKVIm25IKqlcqbJmc1rrJD3dKhIvutFK+IA="
      "http://127.0.0.1:5555" "test.bat" ].

(** A [hashlib] that offers SHA-256 only. *)
Definition sha256_only : Hashlib := {|
  algorithms_available := ["sha256"];
  digest_size := fun name => if String.eqb name "sha256" then 32%nat else 0%nat;
  needs_length := fun _ => false;
  hash := fun _ msg => sha256.digest msg
|}.

(** A [hashlib] that offers SHA-256 and SHAKE128.  The digest of SHAKE128
    has the length asked for, and [digest_size] says 0: [hash] is the
    digest of that length, which is empty. *)
Definition sha256_and_shake : Hashlib := {|
  algorithms_available := ["sha256"; "shake_128"];
  digest_size := fun name => if String.eqb name "sha256" then 32%nat else 0%nat;
  needs_length := fun name => String.eqb name "shake_128";
  hash := fun name msg => if String.eqb name "sha256" then sha256.digest msg else []
|}.

(** Modelled from the spec: [lang_base.environment_dir], the
    environment-directory allocator, is not among the sources; it gives a
    path that depends on the installation root, the category label and
    the version only. *)
Definition lang_base_environment_dir (prefix d version : string) : string :=
  prefix +:+ "/" +:+ d +:+ "-" +:+ version.

(** An excerpt of the Unicode database: [str.isprintable] as it is from
    U+0080 to U+00FF; above, the separators, the format characters listed,
    the surrogates and the private-use characters of the Basic Multilingual
    Plane are not printable, and the other code points are taken to be (an
    unassigned one is not). *)
Definition printable (cp : N) : bool :=
  (if cp <? 0x100 then (0xa1 <=? cp) && negb (cp =? 0xad)
   else negb (bool_decide (cp ∈ Str.whitespace))
        && negb ((0x200b <=? cp) && (cp <=? 0x200f))
        && negb ((0x202a <=? cp) && (cp <=? 0x202e))
        && negb ((0x2060 <=? cp) && (cp <=? 0x206f))
        && negb ((0xd800 <=? cp) && (cp <=? 0xf8ff))
        && negb (cp =? 0xfeff))%N.

(** A directory is there when it was made, or lies above one that was. *)
Definition is_dir (w : World) (path : string) : bool :=
  existsb (posix.above path) (elements (dirs w)).

(** A POSIX file system without links, for a process that owns the files
    and has no privilege.  A file is opened for writing when it has the
    owner's write bit, or is not there and its directory is; it is opened
    for reading when it has the owner's read bit; a directory is not opened
    as a file, and is not made where a file is.  The disk does not fill. *)
Definition unprivileged (w : World) (op : fs_op) : option errno.t :=
  match op with
  | Mkdir p =>
      match fs w !! p with
      | Some _ => Some errno.EEXIST
      | None => None
      end
  | OpenW p =>
      match fs w !! p with
      | Some f =>
          if (Z.land (mode f) stat.S_IWUSR =? 0)%Z then Some errno.EACCES else None
      | None =>
          if is_dir w p then Some errno.EISDIR
          else if is_dir w (posix.parent p) then None
          else Some errno.ENOENT
      end
  | OpenR p =>
      match fs w !! p with
      | Some f =>
          if (Z.land (mode f) stat.S_IRUSR =? 0)%Z then Some errno.EACCES else None
      | None => if is_dir w p then Some errno.EISDIR else None
      end
  | Write _ _ | Chmod _ _ => None
  end.

(** A host with the given system and machine names, whose test server
    answers every request with [body]. *)
Definition host (system machine : string) (body : bytes) : Runtime := {|
  hashlib := sha256_only;
  platform_system := system;
  platform_machine := machine;
  urlparse := urllib.urlsplit;
  urlopen := fun _ => Ok body;
  PurePath := posix.PurePath;
  joinpath := posix.locate;
  environment_dir := lang_base_environment_dir;
  create_mode := 0x1a4;   (* 0o644 *)
  linesep := Str.nl;
  isprintable := printable;
  refuses := unprivileged
|}.

(** A Linux host on x86-64. *)
Definition runtime (body : bytes) : Runtime := host "Linux" "x86_64" body.

Definition empty : World := {| fs := ∅; dirs := ∅ |}.
End testbed.

(* ===================================================================== *)
(** ** Notions used in the statements *)
(* ===================================================================== *)

(** The base64 text of a digest. *)
Definition b64text (d : bytes) : string :=
  string_of_list_byte (base64.b64encode d).

(** The digest of [data] under [algorithm], as [digest()] gives it, or the
    error [digest()] raises. *)
Definition digest_of (hl : Hashlib) (algorithm : string) (data : bytes)
  : result bytes :=
  hasher.digest hl (hasher.update (hasher.new algorithm) data).

(** The error of a digest that differs from the stored one. *)
Definition mismatch (stored_digest found : string) : exn :=
  Mismatch {| expected := stored_digest; actual := found;
              message := "checksum mismatch" |}.

(** How a check of [data] against [sri] ends. *)
Definition verdict (hl : Hashlib) (algorithm : string) (sri : SRI.t) (data : bytes)
  : result unit :=
  d ← digest_of hl algorithm data;
  if String.eqb (b64text d) (SRI.checksum sri) then Ok tt
  else Raise (mismatch (SRI.checksum sri) (b64text d)).

(** [list(g)], where it ends: the chunks handed over, and the end of the
    iteration; [None] when [fuel] calls of [next] do not reach it. *)
Fixpoint drain {IO} `{HasBinaryRead IO} (hl : Hashlib) (fuel : nat)
    (g : SRI.generator IO) : option (list bytes * result unit) :=
  match fuel with
  | O => None
  | S n =>
      match SRI.next hl g with
      | (SRI.Yield buffer, g') =>
          match drain hl n g' with
          | Some (chunks, r) => Some (buffer :: chunks, r)
          | None => None
          end
      | (SRI.StopIteration, _) => Some ([], Ok tt)
      | (SRI.Throw e, _) => Some ([], Raise e)
      end
  end.

(** A byte source with a content: [pending s] is what [s] has yet to
    deliver.  A read of a size other than zero delivers a first part of it,
    and comes back empty (or with [None]) only when nothing is pending. *)
Class FiniteSource (IO : Type) `{HasBinaryRead IO} := {
  pending : IO -> bytes;
  read_pending : forall (s : IO) (n : Z),
    n ≠ 0%Z ->
    pending s = default [] (read s n).1 ++ pending (read s n).2
    ∧ (truthy (read s n).1 = false -> pending s = [])
}.

(** The manifest entry [dep] names the platform [p]. *)
Definition entry_platform (dep : string) (p : Platform.t) : Prop :=
  Metadata.platform {| Metadata.value := dep |} = Ok p.

(** [dep] is an entry for another platform than [host]. *)
Definition differs (host : Platform.t) (dep : string) : Prop :=
  ∃ p, entry_platform dep p ∧ Platform.eq host p = Ok false.

(** [dep] is an entry for [host]. *)
Definition matches (host : Platform.t) (dep : string) : Prop :=
  ∃ p, entry_platform dep p ∧ Platform.eq host p = Ok true.

(** [dep] is the first entry of [deps] for the host of [rt], and the entries
    before it name other platforms. *)
Definition selects (rt : Runtime) (deps : list string) (dep : string) : Prop :=
  ∃ host pre post,
    Platform.host rt = Ok host ∧ deps = pre ++ dep :: post
    ∧ Forall (differs host) pre ∧ matches host dep.





(** The canonical names a platform token may carry. *)
Definition allowed_os : list string :=
  ["linux"; "darwin"; "windows"; "dragonfly"; "freebsd"].
Definition allowed_cpu : list string :=
  ["arm64"; "arm64be"; "arm"; "386"; "amd64"; "ppc"; "ppc64"; "ppc64le"].

(** The text an exception carries. *)
Definition carried (e : exn) : list string :=
  match e with
  | Builtin _ arg => [arg]
  | Mismatch m => [expected m; actual m; message m]
  end.

Definition carries (e : exn) (s : string) : Prop :=
  ∃ t, t ∈ carried e ∧ Str.contains s t = true.

(** A host whose operating system is not one of the mapping's. *)
Definition sunos : Runtime := testbed.host "SunOS" "x86_64" [].

(** A Windows host that reports the machine "AMD64". *)
Definition windows_host : Runtime := testbed.host "Windows" "AMD64" [].

(** The end of an iteration, as [next] signals it. *)
Definition signal_of (r : result unit) : SRI.signal :=
  match r with
  | Ok _ => SRI.StopIteration
  | Raise e => SRI.Throw e
  end.

(** The generator after [k] calls of [next], and what call number [k]
    (from 0) signals. *)
Fixpoint advance {IO} `{HasBinaryRead IO} (hl : Hashlib) (k : nat)
    (g : SRI.generator IO) : SRI.generator IO :=
  match k with
  | O => g
  | S k' => advance hl k' (SRI.next hl g).2
  end.

Definition signal_at {IO} `{HasBinaryRead IO} (hl : Hashlib) (k : nat)
    (g : SRI.generator IO) : SRI.signal :=
  (SRI.next hl (advance hl k g)).1.

Definition is_ascii (b : byte) : Prop := (Byte.to_N b < 128)%N.

(** The algorithm is one of [hashlib.algorithms_available]. *)
Definition available (rt : Runtime) (algorithm : string) : Prop :=
  algorithm ∈ algorithms_available (hashlib rt).

(** The errors of [SRI.__init__] for an unknown algorithm and for a digest
    of the wrong length. *)
Definition not_available_error (rt : Runtime) (algorithm : string) : exn :=
  Builtin Cls.ValueError
    ("`" +:+ algorithm +:+ "` is not available, choose one of: "
       +:+ Str.join "," (algorithms_available (hashlib rt)) +:+ "`").

Definition length_error (algorithm : string) (observed size : nat) : exn :=
  Builtin Cls.ValueError
    ("Invalid checksum string length of " +:+ Str.dec observed
       +:+ " for " +:+ algorithm +:+ ", expected " +:+ Str.dec size).

(** The frame after a chunk was read and fed to the hash object. *)
Definition fed_with {IO} (f : SRI.frame IO) (buffer : bytes) (io' : IO)
  : SRI.frame IO :=
  {| SRI.self := SRI.self f;
     SRI.hasher_ := hasher.update (SRI.hasher_ f) buffer;
     SRI.io := io'; SRI.chunk := SRI.chunk f |}.

(** How the generator suspended on [f] ends once [rest] has been fed too. *)
Definition frame_verdict {IO} (hl : Hashlib) (f : SRI.frame IO) (rest : bytes)
  : result unit :=
  verdict hl (hasher.name (SRI.hasher_ f)) (SRI.self f)
    (hasher.fed (SRI.hasher_ f) ++ rest).

(** An in-memory stream is a finite source: all of it is pending. *)
#[global] Instance bytes_finite : FiniteSource bytes.
Proof.
  refine {| pending := fun s => s |}.
  intros s n Hn. unfold read, bytes_read.
  destruct (n <? 0)%Z eqn:E; simpl.
  - split; [now rewrite app_nil_r|]. now destruct s.
  - split; [now rewrite take_drop|].
    apply Z.ltb_ge in E. destruct (Z.to_nat n) as [|k] eqn:Ek; [lia|].
    now destruct s.
Defined.

(** The descriptor of the shell script of the tests, and the one of the
    test [deps_wrong_checksum]. *)
Definition shell_sri : SRI.t := {|
  SRI.value := "sha256-" +:+ testbed.shell_checksum;
  SRI.algorithm := "sha256";
  SRI.checksum := testbed.shell_checksum
|}.

Definition wrong_sri : SRI.t := {|
  SRI.value := "sha256-oRJkj6Cr8nWIivZ9d4W+rVZt/aSW1l9YtxSVh+GtIHM=";
  SRI.algorithm := "sha256";
  SRI.checksum := "oRJkj6Cr8nWIivZ9d4W+rVZt/aSW1l9YtxSVh+GtIHM="
|}.

(** The world where [payload] is stored at [path] with the permission bits
    [m]. *)
Definition stored (path : string) (payload : bytes) (m : Z) (w : World) : World :=
  {| fs := <[path := {| content := payload; mode := m |}]> (fs w);
     dirs := dirs w |}.

(** The permission bits of a file just opened for writing at [path]. *)
Definition mode_on_open (rt : Runtime) (path : string) (w : World) : Z :=
  match fs w !! path with
  | Some f => mode f
  | None => create_mode rt
  end.

(** The world where the directory [path] has been made. *)
Definition with_dir (path : string) (w : World) : World :=
  {| fs := fs w; dirs := {[path]} ∪ dirs w |}.

(** Manifest entries of the tests, and a second entry for Linux. *)
Definition linux_entry : string :=
  testbed.entry "linux/amd64" ("sha256-" +:+ testbed.shell_checksum)
    "http://127.0.0.1:5555" "test.bat".
Definition windows_entry : string :=
  testbed.entry "windows/amd64" ("sha256-" +:+ testbed.batch_checksum)
    "http://127.0.0.1:5555" "test.bat".

Definition linux_amd64 : Platform.t := {| Platform.value := "linux/amd64" |}.

(** The line of the sidecar record for [filename] under [sri], as it is
    written. *)
Definition record_line (rt : Runtime) (sri : SRI.t) (filename : string) : bytes :=
  codecs.utf8_encode
    (Str.write_newlines (linesep rt)
       (SRI.str sri +:+ "  " +:+ filename +:+ Str.nl)).


(** The system lets the file [path] be opened for writing in [w], and
    written to from then on. *)
Definition writable (rt : Runtime) (w : World) (path : string) : Prop :=
  refuses rt w (OpenW path) = None
  ∧ ∀ written buffer,
      refuses rt (stored path written (mode_on_open rt path w) w) (Write path buffer)
      = None.

(** How the writing of [data] to a file can end: all of it is written and
    the check gives its verdict, or the system refuses to write a chunk and
    what came before it is written. *)
Definition written_or_refused (rt : Runtime) (path : string) (c : bytes) (m : Z)
    (w : World) (data : bytes) (whole : result unit) (written : bytes)
    (r : result unit) : Prop :=
  (written = data ∧ r = whole)
  ∨ (∃ b rest k,
       data = written ++ b ++ rest
       ∧ refuses rt (stored path (c ++ written) m w) (Write path b) = Some k
       ∧ r = Raise (os.error k path)).

(** A byte as a text of one character. *)
Definition single (c : ascii) : string := String c EmptyString.




(** The installation of the tests after its script was overwritten with
    seven letters x, as in [test_download_unhealthy_health_check]. *)
Definition tampered : World := {|
  fs := <["/prefix/download-default/test.bat" :=
            {| content := list_byte_of_string "xxxxxxx"; mode := 0x180 |}]>
        (<["/prefix/download-default/health.srisum" :=
             {| content := record_line (testbed.runtime []) shell_sri "test.bat";
                mode := 0x1a4 |}]> ∅);
  dirs := {["/prefix/download-default"]}
|}.



(** The descriptor of SHAKE128 with the digest of no byte. *)
Definition shake_sri : SRI.t := {|
  SRI.value := "shake_128-";
  SRI.algorithm := "shake_128";
  SRI.checksum := EmptyString
|}.

(** A Linux host whose [hashlib] offers SHAKE128 too. *)
Definition shake_host (body : bytes) : Runtime := {|
  hashlib := testbed.sha256_and_shake;
  platform_system := "Linux";
  platform_machine := "x86_64";
  urlparse := urllib.urlsplit;
  urlopen := fun _ => Ok body;
  PurePath := posix.PurePath;
  joinpath := posix.locate;
  environment_dir := testbed.lang_base_environment_dir;
  create_mode := 0x1a4;
  linesep := Str.nl;
  isprintable := testbed.printable;
  refuses := testbed.unprivileged
|}.

(* ===================================================================== *)
(** * Properties *)
(* ===================================================================== *)

(** ** Text *)

Lemma partition_app (sep : ascii) (a b : string) :
  Str.has sep a = false ->
  Str.partition sep (a +:+ String sep b) = Some (a, b).
Proof.
  induction a as [|c a IH]; simpl.
  - now rewrite Ascii.eqb_refl.
  - intros H. apply orb_false_iff in H as [Hc Ha].
    rewrite Hc, (IH Ha). reflexivity.
Qed.

Lemma partition_inv (sep : ascii) (s a b : string) :
  Str.partition sep s = Some (a, b) ->
  s = a +:+ String sep b ∧ Str.has sep a = false.
Proof.
  revert a b. induction s as [|c s IH]; simpl; intros a b H; [discriminate|].
  destruct (Ascii.eqb c sep) eqn:E.
  - apply Ascii.eqb_eq in E. subst c. now inversion H.
  - destruct (Str.partition sep s) as [[a' b']|]; [|discriminate].
    inversion H; subst. destruct (IH a' b eq_refl) as [-> Hh].
    simpl. now rewrite E, Hh.
Qed.

Lemma split1_unpack (sep : ascii) (s a b : string) :
  Str.unpack2 (Str.split1 sep s) = Ok (a, b) <-> Str.partition sep s = Some (a, b).
Proof.
  unfold Str.split1. destruct (Str.partition sep s) as [[a' b']|]; simpl.
  - split; intros H; inversion H; reflexivity.
  - split; intros H; discriminate.
Qed.

Lemma split1_unpack_raise (sep : ascii) (s : string) (e : exn) :
  Str.unpack2 (Str.split1 sep s) = Raise e -> class_of e = Cls.ValueError.
Proof.
  unfold Str.split1. destruct (Str.partition sep s) as [[a' b']|]; simpl.
  - discriminate.
  - intros H. inversion H. reflexivity.
Qed.

(** ** Exceptions *)

Lemma mismatch_is_ValueError (m : ChecksumMismatchError) :
  catches Cls.ValueError (Mismatch m) = true.
Proof. reflexivity. Qed.

Lemma ValueError_not_mismatch (e : exn) :
  class_of e = Cls.ValueError ∨ class_of e = Cls.binascii_Error ->
  catches Cls.ValueError e = true ∧ catches Cls.ChecksumMismatchError e = false.
Proof.
  unfold catches, isinstance. intros [-> | ->]; split; reflexivity.
Qed.

(** ** Platform tokens *)

Ltac elem_cases H :=
  repeat (apply elem_of_cons in H as [H | H]; [subst|]);
  try (apply elem_of_nil in H; destruct H).

Lemma values_OS : Platform.values Platform.OS = allowed_os.
Proof. reflexivity. Qed.

Lemma values_CPU (cpu : string) :
  cpu ∈ Platform.values Platform.CPU <-> cpu ∈ allowed_cpu.
Proof.
  split; intros H; simpl in H; elem_cases H;
    unfold allowed_cpu; simpl; set_solver.
Qed.

Lemma Platform_init_ok (v : string) (p : Platform.t) :
  Platform.init v = Ok p <->
  p = {| Platform.value := v |}
  ∧ ∃ os cpu, Str.partition "/" v = Some (os, cpu)
              ∧ os ∈ Platform.values Platform.OS
              ∧ cpu ∈ Platform.values Platform.CPU.
Proof.
  unfold Platform.init, Platform.parts, Str.split1; simpl.
  destruct (Str.partition "/" v) as [[os cpu]|]; simpl.
  - destruct (bool_decide (os ∈ _)) eqn:Eo; simpl.
    + destruct (bool_decide (cpu ∈ _)) eqn:Ec; simpl.
      * apply bool_decide_eq_true in Eo, Ec. split.
        -- intros H; inversion H. split; [reflexivity|]. now exists os, cpu.
        -- intros [-> _]. reflexivity.
      * apply bool_decide_eq_false in Ec. split; [discriminate|].
        intros [_ (os' & cpu' & H & _ & Hc)]. inversion H; subst. contradiction.
    + apply bool_decide_eq_false in Eo. split; [discriminate|].
      intros [_ (os' & cpu' & H & Ho & _)]. inversion H; subst. contradiction.
  - split; [discriminate|]. intros [_ (os' & cpu' & H & _)]. discriminate.
Qed.

Lemma allowed_os_no_slash (os : string) :
  os ∈ allowed_os -> Str.has "/" os = false.
Proof. intros H. unfold allowed_os in H. elem_cases H; reflexivity. Qed.

(** A token is accepted when, and only when, it is an allowed operating
    system, a slash and an allowed CPU. *)
Lemma Platform_init_iff (v : string) :
  (∃ p, Platform.init v = Ok p) <->
  ∃ os cpu, v = os +:+ "/" +:+ cpu ∧ os ∈ allowed_os ∧ cpu ∈ allowed_cpu.
Proof.
  split.
  - intros [p H]. apply Platform_init_ok in H as [_ (os & cpu & H & Ho & Hc)].
    apply partition_inv in H as [-> _]. exists os, cpu.
    rewrite values_OS in Ho. apply values_CPU in Hc. auto.
  - intros (os & cpu & -> & Ho & Hc). exists {| Platform.value := os +:+ "/" +:+ cpu |}.
    apply Platform_init_ok. split; [reflexivity|]. exists os, cpu.
    split; [|split].
    + apply (partition_app "/" os cpu). now apply allowed_os_no_slash.
    + now rewrite values_OS.
    + now apply values_CPU.
Qed.

Lemma Platform_init_raise (v : string) (e : exn) :
  Platform.init v = Raise e -> class_of e = Cls.ValueError.
Proof.
  unfold Platform.init, Platform.parts. simpl.
  destruct (Str.unpack2 _) as [[os cpu]|e'] eqn:E; simpl.
  - destruct (bool_decide (os ∈ _)); simpl;
      [destruct (bool_decide (cpu ∈ _)); simpl|];
      intros H; inversion H; reflexivity.
  - intros H; inversion H; subst. eapply split1_unpack_raise, E.
Qed.

Lemma getitem_missing (m : list (string * string)) (key : string) :
  key ∉ Platform.keys m ->
  Platform.getitem m key = Raise (Builtin Cls.KeyError key).
Proof.
  unfold Platform.getitem, Platform.keys. induction m as [|[k v] m IH]; simpl.
  - reflexivity.
  - intros H. apply not_elem_of_cons in H as [Hk Hm].
    destruct (String.eqb k key) eqn:E.
    + apply String.eqb_eq in E. congruence.
    + apply IH, Hm.
Qed.

Lemma getitem_found (m : list (string * string)) (key : string) :
  key ∈ Platform.keys m -> ∃ v, Platform.getitem m key = Ok v ∧ v ∈ Platform.values m.
Proof.
  unfold Platform.getitem, Platform.keys, Platform.values.
  induction m as [|[k v] m IH]; simpl.
  - intros H. apply elem_of_nil in H. destruct H.
  - intros H. destruct (String.eqb k key) eqn:E.
    + exists v. split; [reflexivity | apply elem_of_cons; auto].
    + apply elem_of_cons in H as [H | H].
      * apply String.eqb_neq in E. congruence.
      * destruct (IH H) as (v' & Hf & Hv). exists v'.
        split; [exact Hf | apply elem_of_cons; auto].
Qed.

(** C6, as the code has it.  When [platform.system()] is not a key of the
    operating-system mapping, [Platform.host()] raises the [KeyError] of the
    failed lookup, whose only argument is that raw name; when the system is
    known and [platform.machine()] is not a key of the CPU mapping, it raises
    the [KeyError] of that lookup, whose only argument is the raw machine
    name.  Neither error lists the accepted values. *)
Theorem host_unknown_raises_KeyError (rt : Runtime) :
  (platform_system rt ∉ Platform.keys Platform.OS ->
   Platform.host rt = Raise (Builtin Cls.KeyError (platform_system rt)))
  ∧ (platform_system rt ∈ Platform.keys Platform.OS ->
     platform_machine rt ∉ Platform.keys Platform.CPU ->
     Platform.host rt = Raise (Builtin Cls.KeyError (platform_machine rt))).
Proof.
  split.
  - intros H. unfold Platform.host. now rewrite (getitem_missing _ _ H).
  - intros Hs Hm. unfold Platform.host.
    destruct (getitem_found _ _ Hs) as (os & -> & _). simpl.
    now rewrite (getitem_missing _ _ Hm).
Qed.

Lemma host_unknown_raises_KeyError_witness :
  ("SunOS" ∉ Platform.keys Platform.OS)
  ∧ Platform.host sunos = Raise (Builtin Cls.KeyError "SunOS").
Proof.
  assert (H : platform_system sunos ∉ Platform.keys Platform.OS)
    by (vm_compute; intros H; elem_cases H; discriminate).
  split; [exact H | exact (proj1 (host_unknown_raises_KeyError sunos) H)].
Defined.

(** C6, as the claim states it, fails on a host whose system is "SunOS":
    the error raised carries the raw name and none of the accepted
    values. *)
Lemma host_error_lacks_accepted_values :
  ("SunOS" ∉ Platform.keys Platform.OS)
  ∧ ∃ e, Platform.host sunos = Raise e
         ∧ carries e "SunOS"
         ∧ ¬ carries e (Str.join "," (Platform.values Platform.OS))
         ∧ Forall (fun v => ¬ carries e v) (Platform.values Platform.OS).
Proof.
  split; [vm_compute; intros H; elem_cases H; discriminate|].
  exists (Builtin Cls.KeyError "SunOS"). split; [reflexivity|].
  split; [exists "SunOS"; split; [apply list_elem_of_singleton|]; reflexivity|].
  split.
  - intros (t & Ht & Hc). apply list_elem_of_singleton in Ht. subst. discriminate.
  - repeat constructor; intros (t & Ht & Hc);
      apply list_elem_of_singleton in Ht; subst; discriminate.
Qed.

Lemma NoDup_allowed_os : NoDup allowed_os.
Proof. apply (bool_decide_unpack _). vm_compute. exact I. Qed.

Lemma NoDup_allowed_cpu : NoDup allowed_cpu.
Proof. apply (bool_decide_unpack _). vm_compute. exact I. Qed.

(** C9, as the code has it.  [Platform(value)] succeeds exactly when [value]
    is an allowed operating system, a slash and an allowed CPU, and raises a
    [ValueError] otherwise.  The allowed operating systems are the 5 values
    of the [OS] mapping.  The allowed CPUs are the values of the [CPU]
    mapping: its 10 keys are raw machine names, two pairs of which share a
    value, which leaves 8 distinct CPU names. *)
Theorem Platform_accepts_allowed_tokens :
  (∀ v, (∃ p, Platform.init v = Ok p) <->
        ∃ os cpu, v = os +:+ "/" +:+ cpu ∧ os ∈ allowed_os ∧ cpu ∈ allowed_cpu)
  ∧ (∀ v, (¬ ∃ os cpu, v = os +:+ "/" +:+ cpu ∧ os ∈ allowed_os ∧ cpu ∈ allowed_cpu) ->
          ∃ e, Platform.init v = Raise e ∧ class_of e = Cls.ValueError)
  ∧ (Platform.values Platform.OS = allowed_os
     ∧ NoDup allowed_os ∧ length allowed_os = 5)
  ∧ ((∀ cpu, cpu ∈ Platform.values Platform.CPU <-> cpu ∈ allowed_cpu)
     ∧ NoDup allowed_cpu ∧ length allowed_cpu = 8
     ∧ length (Platform.keys Platform.CPU) = 10).
Proof.
  split; [exact Platform_init_iff|]. split; [|split].
  - intros v Hv. destruct (Platform.init v) as [p|e] eqn:E.
    + exfalso. apply Hv, Platform_init_iff. now exists p.
    + exists e. split; [reflexivity|]. eapply Platform_init_raise, E.
  - split; [reflexivity|]. split; [exact NoDup_allowed_os | reflexivity].
  - split; [exact values_CPU|]. split; [exact NoDup_allowed_cpu|].
    split; reflexivity.
Qed.

Lemma Platform_accepts_allowed_tokens_witness :
  (¬ ∃ os cpu, "linux/x86_64" = os +:+ "/" +:+ cpu ∧ os ∈ allowed_os ∧ cpu ∈ allowed_cpu)
  ∧ ∃ e, Platform.init "linux/x86_64" = Raise e ∧ class_of e = Cls.ValueError.
Proof.
  assert (H : ¬ ∃ os cpu, "linux/x86_64" = os +:+ "/" +:+ cpu
                          ∧ os ∈ allowed_os ∧ cpu ∈ allowed_cpu).
  { intros (os & cpu & Hv & Ho & Hc). unfold allowed_os in Ho.
    elem_cases Ho; simpl in Hv; try discriminate.
    inversion Hv; subst. unfold allowed_cpu in Hc. elem_cases Hc; discriminate. }
  split; [exact H|].
  exact (proj1 (proj2 Platform_accepts_allowed_tokens) "linux/x86_64" H).
Defined.

(** C9, as the claim states it, fails: no list of 10 distinct CPU names is
    the allow-list of the construction, whatever the 5 operating systems.
    The raw machine name x86_64, one of the 10 keys of the mapping, is not a
    CPU of a token, and the error lists the 8 accepted names, two of them
    twice. *)
Lemma no_allow_list_of_ten_cpus :
  (¬ ∃ Lo Lc : list string,
       NoDup Lo ∧ length Lo = 5 ∧ NoDup Lc ∧ length Lc = 10
       ∧ ∀ os cpu, (∃ p, Platform.init (os +:+ "/" +:+ cpu) = Ok p)
                   <-> os ∈ Lo ∧ cpu ∈ Lc)
  ∧ "x86_64" ∈ Platform.keys Platform.CPU
  ∧ Platform.init "linux/x86_64" =
      Raise (Builtin Cls.ValueError
               "invalid CPU `x86_64`, valid values are: arm64,arm64be,arm,386,386,amd64,amd64,ppc,ppc64,ppc64le").
Proof.
  split; [|split; [|reflexivity]].
  - intros (Lo & Lc & _ & _ & HLc & Hlen & Hiff).
    assert (Hlinux : "linux" ∈ Lo).
    { apply (Hiff "linux" "amd64"). eexists. reflexivity. }
    assert (Hsub : ∀ c, c ∈ Lc -> c ∈ allowed_cpu).
    { intros c Hc. destruct (proj2 (Hiff "linux" c) (conj Hlinux Hc)) as [p Hp].
      apply Platform_init_ok in Hp as [_ (os & cpu & Hpart & _ & Hcpu)].
      simpl in Hpart. inversion Hpart; subst. now apply values_CPU. }
    pose proof (submseteq_length _ _ (NoDup_submseteq _ _ HLc Hsub)) as Hle.
    rewrite Hlen in Hle. simpl in Hle. lia.
  - unfold Platform.keys. simpl. set_solver.
Qed.

(** ** Characters and lines *)

Lemma append_cons (c : ascii) (a b : string) :
  String c a +:+ b = String c (a +:+ b).
Proof. reflexivity. Qed.

Lemma append_nil_r (s : string) : s +:+ EmptyString = s.
Proof. induction s as [|c s IH]; [reflexivity | now rewrite append_cons, IH]. Qed.


Lemma join_cons (x : string) (l : list string) :
  Str.join EmptyString (x :: l) = x +:+ Str.join EmptyString l.
Proof.
  unfold Str.join. destruct l as [|y l]; simpl; [symmetry; apply append_nil_r | reflexivity].
Qed.


Lemma slice_to_from (n : nat) (s : string) :
  Str.slice_to n s +:+ Str.slice_from n s = s.
Proof.
  revert s. induction n as [|n IH]; intros [|c s]; try reflexivity.
  cbn [Str.slice_to Str.slice_from]. now rewrite append_cons, IH.
Qed.

Lemma slice_from_length (n : nat) (s : string) :
  String.length (Str.slice_from n s) = String.length s - n.
Proof.
  revert s. induction n as [|n IH]; intros [|c s]; simpl; try reflexivity; try lia.
  apply IH.
Qed.

Lemma width_pos (s : string) (k : nat) : Str.width s = Some k -> 0 < k.
Proof.
  unfold Str.width. intros H.
  repeat match type of H with
         | match ?x with _ => _ end = _ => destruct x
         | (if ?b then _ else _) = _ => destruct b
         end; inversion H; lia.
Qed.

(** The characters of a text, put end to end, are the text. *)
Lemma join_chars (s : string) : Str.join EmptyString (Str.chars s) = s.
Proof.
  unfold Str.chars.
  assert (H : ∀ n s, String.length s <= n ->
                Str.join EmptyString (Str.chars_upto n s) = s).
  { clear s. induction n as [|n IH]; intros [|c s] Hn; simpl in Hn; try reflexivity; [lia|].
    cbn [Str.chars_upto]. rewrite join_cons, IH.
    - apply slice_to_from.
    - rewrite slice_from_length.
      destruct (Str.width (String c s)) as [k|] eqn:E; simpl.
      + apply width_pos in E. lia.
      + lia. }
  now apply H.
Qed.

(** A character of an ASCII text is one byte. *)
Lemma chars_isascii (s : string) :
  Str.isascii s = true -> Str.chars s = map single (list_ascii_of_string s).
Proof.
  unfold Str.chars, Str.isascii.
  assert (H : ∀ n s, Str.all (fun c => (Str.code c <? 128)%N) s = true ->
                String.length s <= n ->
                Str.chars_upto n s = map single (list_ascii_of_string s)).
  { clear s. induction n as [|n IH]; intros [|c s] Ha Hn; simpl in Hn; try reflexivity; [lia|].
    simpl in Ha. apply andb_true_iff in Ha as [Hc Ha].
    cbn [Str.chars_upto Str.width]. rewrite Hc. simpl.
    rewrite IH by (auto; lia). reflexivity. }
  intros Ha. now apply H.
Qed.

Lemma well_formed_isascii (s : string) :
  Str.isascii s = true -> Str.well_formed s = true.
Proof.
  intros Ha. unfold Str.well_formed. rewrite (chars_isascii s Ha).
  unfold Str.isascii in Ha. induction s as [|c s IH]; [reflexivity|].
  simpl in Ha. apply andb_true_iff in Ha as [Hc Ha].
  cbn [list_ascii_of_string map forallb]. rewrite (IH Ha), andb_true_r.
  apply bool_decide_eq_true. unfold single, Str.width. rewrite Hc. now eexists.
Qed.




(** ** Base64 and the codecs *)

Lemma N_of_ascii_of_byte (b : byte) : N_of_ascii (ascii_of_byte b) = Byte.to_N b.
Proof. now destruct b. Qed.

Lemma isascii_of_bytes (bs : bytes) :
  Forall is_ascii bs -> Str.isascii (string_of_list_byte bs) = true.
Proof.
  unfold Str.isascii, string_of_list_byte.
  induction 1 as [|b bs Hb _ IH]; [reflexivity|].
  cbn [map string_of_list_ascii Str.all]. rewrite IH, andb_true_r.
  unfold Str.code. rewrite N_of_ascii_of_byte. now apply N.ltb_lt.
Qed.

(** ASCII bytes decode to the text they are. *)
Lemma utf8_decode_ascii (bs : bytes) :
  Forall is_ascii bs -> codecs.utf8_decode bs = Ok (string_of_list_byte bs).
Proof.
  intros H. unfold codecs.utf8_decode.
  now rewrite (well_formed_isascii _ (isascii_of_bytes bs H)).
Qed.

Lemma nth_Forall {A} (P : A -> Prop) (l : list A) (d : A) (i : nat) :
  Forall P l -> P d -> P (nth i l d).
Proof.
  intros Hl Hd. revert i. induction Hl as [|x l Hx _ IH]; intros [|i]; simpl; auto.
Qed.

Lemma b2a_ascii (n : N) : is_ascii (base64.b2a n).
Proof.
  unfold base64.b2a. apply nth_Forall.
  - unfold base64.alphabet. simpl. repeat constructor.
  - reflexivity.
Qed.

(** Induction on a list, three elements at a time. *)
Lemma list_ind3 {A} (P : list A -> Prop) :
  P [] -> (∀ x, P [x]) -> (∀ x y, P [x; y]) ->
  (∀ x y z l, P l -> P (x :: y :: z :: l)) ->
  ∀ l, P l.
Proof.
  intros H0 H1 H2 H3.
  assert (H : ∀ l, P l ∧ (∀ x, P (x :: l)) ∧ (∀ x y, P (x :: y :: l))).
  { induction l as [|a l (IH0 & IH1 & IH2)]; [now auto|].
    split; [apply IH1|]. split; [intros x; apply IH2|].
    intros x y. now apply H3. }
  intros l. apply H.
Qed.

Lemma b64encode_ascii (s : bytes) : Forall is_ascii (base64.b64encode s).
Proof.
  induction s as [| x | x y | x y z l IH] using list_ind3;
    cbn [base64.b64encode];
    repeat (apply Forall_cons; split; [first [apply b2a_ascii | reflexivity]|]);
    first [exact IH | constructor].
Qed.

(** Four characters for every three bytes or part of three: nothing is
    added to the encoded text. *)
Lemma b64encode_length (s : bytes) :
  length (base64.b64encode s) = 4 * ((length s + 2) / 3).
Proof.
  induction s as [| x | x y | x y z l IH] using list_ind3;
    cbn [base64.b64encode length]; try reflexivity.
  rewrite IH.
  replace (S (S (S (length l))) + 2) with (1 * 3 + (length l + 2)) by lia.
  rewrite Nat.div_add_l by lia. lia.
Qed.

Lemma lookup_utf_8 : codecs.lookup "utf-8" = Some codecs.utf_8.
Proof. reflexivity. Qed.

(** The codec named [utf-8)] is the UTF-8 codec: the parenthesis is dropped
    when the registry normalises the name. *)
Lemma lookup_utf_8_paren : codecs.lookup "utf-8)" = Some codecs.utf_8.
Proof. reflexivity. Qed.

Lemma decode_b64encode (d : bytes) :
  codecs.decode (base64.b64encode d) "utf-8" = Ok (b64text d)
  ∧ codecs.decode (base64.b64encode d) "utf-8)" = Ok (b64text d).
Proof.
  unfold codecs.decode. rewrite lookup_utf_8, lookup_utf_8_paren.
  split; apply utf8_decode_ascii, b64encode_ascii.
Qed.

Lemma ascii_encode_raise (s : string) (e : exn) :
  codecs.ascii_encode s = Raise e -> class_of e = Cls.ValueError.
Proof.
  induction s as [|c s IH]; simpl; [discriminate|].
  destruct (Str.code c <? 128)%N.
  - destruct (codecs.ascii_encode s); simpl; [discriminate|].
    intros H; inversion H; subst. now apply IH.
  - intros H; inversion H. reflexivity.
Qed.

Lemma a2b_base64_raise (s out : bytes) (q l p : N) (e : exn) :
  base64.a2b_base64 q l p out s = Raise e -> class_of e = Cls.binascii_Error.
Proof.
  revert q l p out. induction s as [|ch s IH]; intros q l p out; simpl.
  - destruct (q =? 0)%N; [discriminate|].
    destruct (q =? 1)%N; intros H; inversion H; reflexivity.
  - destruct (Byte.eqb ch base64.pad).
    + destruct (2 <=? q)%N; [destruct (4 <=? q + (p + 1))%N; [discriminate|]|];
        apply IH.
    + destruct (base64.a2b ch); [|apply IH].
      destruct (q =? 0)%N; [apply IH|].
      destruct (q =? 1)%N; [apply IH|].
      destruct (q =? 2)%N; apply IH.
Qed.

Lemma b64decode_raise (s : string) (e : exn) :
  base64.b64decode s = Raise e ->
  class_of e = Cls.ValueError ∨ class_of e = Cls.binascii_Error.
Proof.
  unfold base64.b64decode.
  destruct (codecs.ascii_encode s) as [bs|e'] eqn:E; simpl.
  - intros H. right. eapply a2b_base64_raise, H.
  - intros H; inversion H; subst. left. eapply ascii_encode_raise, E.
Qed.

(** ** Integrity descriptors *)

Section sri_init.
Variable rt : Runtime.

Lemma SRI_init_cases (v algorithm checksum : string) :
  Str.partition "-" v = Some (algorithm, checksum) ->
  SRI.init rt v =
    if bool_decide (algorithm ∈ algorithms_available (hashlib rt)) then
      match base64.b64decode checksum with
      | Raise e => Raise e
      | Ok d =>
          if String.eqb (b64text d) checksum then
            if length d =? digest_size (hashlib rt) algorithm then
              Ok {| SRI.value := v; SRI.algorithm := algorithm;
                    SRI.checksum := checksum |}
            else Raise (length_error algorithm (length d)
                          (digest_size (hashlib rt) algorithm))
          else Raise (Builtin Cls.ValueError
                        "Invalid checksum string, the checksum string has to be encoded in base64.")
      end
    else Raise (not_available_error rt algorithm).
Proof.
  intros Hp. unfold SRI.init, Str.split1. rewrite Hp. simpl.
  destruct (bool_decide _); simpl; [|reflexivity].
  destruct (base64.b64decode checksum) as [d|e]; simpl; [|reflexivity].
  rewrite (proj1 (decode_b64encode d)). simpl.
  destruct (String.eqb (b64text d) checksum); simpl; [|reflexivity].
  destruct (length d =? _); reflexivity.
Qed.

Lemma SRI_init_raise (v : string) (e : exn) :
  SRI.init rt v = Raise e ->
  class_of e = Cls.ValueError ∨ class_of e = Cls.binascii_Error.
Proof.
  destruct (Str.partition "-" v) as [[a c]|] eqn:Hp.
  - rewrite (SRI_init_cases _ _ _ Hp).
    destruct (bool_decide _); [|intros H; inversion H; now left].
    destruct (base64.b64decode c) as [d|e'] eqn:Ed.
    + destruct (String.eqb _ _); [destruct (_ =? _); [discriminate|]|];
        intros H; inversion H; now left.
    + intros H; inversion H; subst. eapply b64decode_raise, Ed.
  - unfold SRI.init, Str.split1. rewrite Hp. simpl.
    intros H; inversion H. now left.
Qed.

Lemma SRI_init_ok (v : string) (sri : SRI.t) :
  SRI.init rt v = Ok sri ->
  Str.partition "-" v = Some (SRI.algorithm sri, SRI.checksum sri)
  ∧ SRI.value sri = v
  ∧ available rt (SRI.algorithm sri)
  ∧ ∃ d, base64.b64decode (SRI.checksum sri) = Ok d
         ∧ b64text d = SRI.checksum sri
         ∧ length d = digest_size (hashlib rt) (SRI.algorithm sri).
Proof.
  destruct (Str.partition "-" v) as [[a c]|] eqn:Hp.
  - rewrite (SRI_init_cases _ _ _ Hp).
    destruct (bool_decide _) eqn:Ea; [|discriminate].
    destruct (base64.b64decode c) as [d|e'] eqn:Ed; [|discriminate].
    destruct (String.eqb _ _) eqn:Eb; [|discriminate].
    destruct (_ =? _) eqn:El; [|discriminate].
    intros H; inversion H; subst; simpl.
    apply bool_decide_eq_true in Ea. apply String.eqb_eq in Eb.
    apply Nat.eqb_eq in El. split; [reflexivity|]. split; [reflexivity|].
    split; [exact Ea|]. exists d. rewrite Ed. auto.
  - unfold SRI.init, Str.split1. rewrite Hp. discriminate.
Qed.
End sri_init.

(** C7.  Let [algorithm] be the text before the first dash of a descriptor
    and [checksum] the text after it.  [SRI(value)] raises a [ValueError]
    that names the algorithm when it is not available; it raises an error
    that a [ValueError] handler catches when the checksum does not decode
    to bytes whose base64 encoding is the checksum again; and when the
    checksum is such an encoding but of a number of bytes other than the
    digest size of the algorithm, it raises the [ValueError] whose message
    gives that number and the digest size.  It succeeds in the one case
    left. *)
Theorem SRI_init_rejects (rt : Runtime) (algorithm checksum : string) :
  Str.has "-" algorithm = false ->
  let v := algorithm +:+ "-" +:+ checksum in
  (¬ available rt algorithm ->
   SRI.init rt v = Raise (not_available_error rt algorithm))
  ∧ (available rt algorithm ->
     (∀ d, base64.b64decode checksum = Ok d -> b64text d ≠ checksum) ->
     ∃ e, SRI.init rt v = Raise e ∧ catches Cls.ValueError e = true)
  ∧ (available rt algorithm ->
     ∀ d, base64.b64decode checksum = Ok d -> b64text d = checksum ->
          length d ≠ digest_size (hashlib rt) algorithm ->
          SRI.init rt v =
            Raise (length_error algorithm (length d)
                     (digest_size (hashlib rt) algorithm)))
  ∧ ((∃ sri, SRI.init rt v = Ok sri) <->
     available rt algorithm
     ∧ ∃ d, base64.b64decode checksum = Ok d ∧ b64text d = checksum
            ∧ length d = digest_size (hashlib rt) algorithm).
Proof.
  intros Hdash v.
  assert (Hpv : Str.partition "-" v = Some (algorithm, checksum))
    by exact (partition_app "-" _ checksum Hdash).
  pose proof (SRI_init_cases rt v _ _ Hpv) as E.
  split; [|split; [|split]].
  - intros Hn. rewrite E. now rewrite bool_decide_eq_false_2.
  - intros Ha Hbad. rewrite E, bool_decide_eq_true_2 by exact Ha.
    destruct (base64.b64decode checksum) as [d|e] eqn:Ed.
    + destruct (String.eqb_spec (b64text d) checksum) as [Heq|_].
      * now destruct (Hbad d eq_refl).
      * eexists. split; reflexivity.
    + exists e. split; [reflexivity|].
      apply ValueError_not_mismatch. eapply b64decode_raise, Ed.
  - intros Ha d Hd Hrt Hlen. rewrite E, bool_decide_eq_true_2 by exact Ha.
    rewrite Hd, Hrt, String.eqb_refl.
    apply Nat.eqb_neq in Hlen. now rewrite Hlen.
  - split.
    + intros [sri H]. apply SRI_init_ok in H as (Hp & _ & Ha & d & Hd & Hrt & Hlen).
      rewrite Hpv in Hp. inversion Hp; subst. split; [exact Ha|]. now exists d.
    + intros (Ha & d & Hd & Hrt & Hlen). rewrite E, bool_decide_eq_true_2 by exact Ha.
      rewrite Hd, Hrt, String.eqb_refl, Hlen, Nat.eqb_refl. eexists. reflexivity.
Qed.

(** The descriptor of the test [deps_invalid_length]: 44 letters x decode to
    33 bytes, one more than a SHA-256 digest. *)
Lemma SRI_init_rejects_witness :
  let checksum := "xxxxxxxxxxxxxxxxxxxxxxxxxxxxxxxxxxxxxxxxxxxx" in
  Str.has "-" "sha256" = false
  ∧ SRI.init (testbed.runtime []) ("sha256-" +:+ checksum) =
      Raise (Builtin Cls.ValueError
               "Invalid checksum string length of 33 for sha256, expected 32").
Proof.
  intros checksum. split; [reflexivity|].
  pose (d := match base64.b64decode checksum with Ok d => d | Raise _ => [] end).
  assert (Ha : available (testbed.runtime []) "sha256")
    by (apply list_elem_of_singleton; reflexivity).
  assert (Hd : base64.b64decode checksum = Ok d) by reflexivity.
  assert (Hrt : b64text d = checksum) by reflexivity.
  assert (Hlen : length d ≠ digest_size (hashlib (testbed.runtime [])) "sha256")
    by (vm_compute; lia).
  exact (proj1 (proj2 (proj2
           (SRI_init_rejects (testbed.runtime []) "sha256" checksum eq_refl)))
           Ha d Hd Hrt Hlen).
Defined.

Lemma unpack4_raise (l : list string) (e : exn) :
  Str.unpack4 l = Raise e -> class_of e = Cls.ValueError.
Proof.
  unfold Str.unpack4, Str.unpack_error. intros H.
  destruct l as [|a [|b [|c [|d [|x l]]]]]; try discriminate;
    inversion H; destruct (_ <? _); reflexivity.
Qed.

(** C10.  [ChecksumMismatchError] is declared with [ValueError] as its
    base, so a handler for [ValueError], or for any class above it, catches
    a checksum mismatch.  The failures of parsing a descriptor, a platform
    token or a manifest entry are [ValueError]s as well (the [URI] check
    raises a [ValueError], or what [urlparse] raised); a handler for
    [ChecksumMismatchError] catches a mismatch and none of them.  The two
    kinds of failure are thus told apart by the more specific class only,
    within one hierarchy. *)
Theorem ChecksumMismatchError_is_a_ValueError :
  Cls.base Cls.ChecksumMismatchError = Some Cls.ValueError
  ∧ Cls.mro 4 Cls.ChecksumMismatchError =
      [Cls.ChecksumMismatchError; Cls.ValueError; Cls.Exception; Cls.BaseException]
  ∧ (∀ c m, Cls.issubclass Cls.ValueError c = true -> catches c (Mismatch m) = true)
  ∧ (∀ m, catches Cls.ChecksumMismatchError (Mismatch m) = true)
  ∧ (∀ rt v e, SRI.init rt v = Raise e ->
       catches Cls.ValueError e = true ∧ catches Cls.ChecksumMismatchError e = false)
  ∧ (∀ v e, Platform.init v = Raise e ->
       catches Cls.ValueError e = true ∧ catches Cls.ChecksumMismatchError e = false)
  ∧ (∀ m e, Metadata.parts m = Raise e ->
       catches Cls.ValueError e = true ∧ catches Cls.ChecksumMismatchError e = false)
  ∧ (∀ rt v e, URI.init rt v = Raise e ->
       urlparse rt v = Raise e ∨ e = Builtin Cls.ValueError ("Invalid URI: " +:+ v)).
Proof.
  split; [reflexivity|]. split; [reflexivity|]. split; [|split; [|split; [|split; [|split]]]].
  - intros c m. now destruct c.
  - reflexivity.
  - intros rt v e H. apply ValueError_not_mismatch. eapply SRI_init_raise, H.
  - intros v e H. apply ValueError_not_mismatch. left. eapply Platform_init_raise, H.
  - intros m e H. apply ValueError_not_mismatch. left. eapply unpack4_raise, H.
  - intros rt v e. unfold URI.init.
    destruct (urlparse rt v) as [[scheme netloc]|e']; simpl.
    + destruct (negb _); [|discriminate]. intros H; inversion H. now right.
    + intros H; inversion H. now left.
Qed.

(** A handler for [ValueError] around the parsing of the truncated
    descriptor "sha256" catches the error, as it would a mismatch. *)
Lemma ChecksumMismatchError_is_a_ValueError_witness :
  Cls.issubclass Cls.ValueError Cls.ValueError = true
  ∧ catches Cls.ValueError
      (Mismatch {| expected := "a"; actual := "b"; message := "checksum mismatch" |})
    = true
  ∧ SRI.init (testbed.runtime []) "sha256" =
      Raise (Builtin Cls.ValueError "not enough values to unpack (expected 2, got 1)")
  ∧ catches Cls.ValueError
      (Builtin Cls.ValueError "not enough values to unpack (expected 2, got 1)") = true.
Proof.
  pose proof ChecksumMismatchError_is_a_ValueError as (_ & _ & Hup & _ & Hsri & _).
  split; [reflexivity|]. split; [apply Hup; reflexivity|].
  split; [reflexivity|]. exact (proj1 (Hsri (testbed.runtime []) "sha256" _ eq_refl)).
Defined.

(** ** The streaming check *)

Lemma digest_of_cases (hl : Hashlib) (algorithm : string) (data : bytes) :
  digest_of hl algorithm data =
    if needs_length hl algorithm then
      Raise (Builtin Cls.TypeError
               "digest() missing required argument 'length' (pos 1)")
    else Ok (hash hl algorithm data).
Proof. reflexivity. Qed.

Lemma digest_of_fed (hl : Hashlib) (h : hasher.t) :
  hasher.digest hl h = digest_of hl (hasher.name h) (hasher.fed h).
Proof. reflexivity. Qed.

Lemma verdict_match (hl : Hashlib) (algorithm : string) (sri : SRI.t) (data d : bytes) :
  digest_of hl algorithm data = Ok d ->
  SRI.checksum sri = b64text d ->
  verdict hl algorithm sri data = Ok tt.
Proof. unfold verdict. intros -> ->. simpl. now rewrite String.eqb_refl. Qed.

Lemma verdict_mismatch (hl : Hashlib) (algorithm : string) (sri : SRI.t) (data d : bytes) :
  digest_of hl algorithm data = Ok d ->
  b64text d ≠ SRI.checksum sri ->
  verdict hl algorithm sri data = Raise (mismatch (SRI.checksum sri) (b64text d)).
Proof.
  unfold verdict. intros -> Hne. simpl. apply String.eqb_neq in Hne. now rewrite Hne.
Qed.

Lemma verdict_raise (hl : Hashlib) (algorithm : string) (sri : SRI.t) (data : bytes)
    (e : exn) :
  digest_of hl algorithm data = Raise e -> verdict hl algorithm sri data = Raise e.
Proof. unfold verdict. now intros ->. Qed.

Lemma verdict_ok_inv (hl : Hashlib) (algorithm : string) (sri : SRI.t) (data : bytes) :
  verdict hl algorithm sri data = Ok tt ->
  needs_length hl algorithm = false
  ∧ b64text (hash hl algorithm data) = SRI.checksum sri.
Proof.
  unfold verdict. rewrite digest_of_cases.
  destruct (needs_length hl algorithm); simpl; [discriminate|].
  destruct (String.eqb_spec (b64text (hash hl algorithm data)) (SRI.checksum sri));
    [auto | discriminate].
Qed.

(** A check raises a [ChecksumMismatchError] only for a digest that
    differs from the stored one. *)
Lemma verdict_mismatch_inv (hl : Hashlib) (algorithm : string) (sri : SRI.t)
    (data : bytes) (e : exn) :
  verdict hl algorithm sri data = Raise e ->
  catches Cls.ChecksumMismatchError e = true ->
  needs_length hl algorithm = false
  ∧ b64text (hash hl algorithm data) ≠ SRI.checksum sri
  ∧ e = mismatch (SRI.checksum sri) (b64text (hash hl algorithm data)).
Proof.
  unfold verdict. rewrite digest_of_cases.
  destruct (needs_length hl algorithm); simpl.
  - intros H; inversion H; subst. discriminate.
  - destruct (String.eqb_spec (b64text (hash hl algorithm data)) (SRI.checksum sri));
      [discriminate|].
    intros H _; inversion H. auto.
Qed.

Section check.
Context {IO : Type} `{HasBinaryRead IO}.
Variable hl : Hashlib.

(** A read that brings something: the chunk is yielded as it is, and
    nothing is compared. *)
Lemma next_yield (f : SRI.frame IO) :
  truthy (read (SRI.io f) (SRI.chunk f)).1 = true ->
  SRI.next hl (SRI.Suspended f) =
    (SRI.Yield (default [] (read (SRI.io f) (SRI.chunk f)).1),
     SRI.Suspended (fed_with f (default [] (read (SRI.io f) (SRI.chunk f)).1)
                      (read (SRI.io f) (SRI.chunk f)).2)).
Proof.
  unfold SRI.next. destruct (read (SRI.io f) (SRI.chunk f)) as [buffer io'].
  simpl. intros ->. reflexivity.
Qed.

(** A read that brings nothing: the digest of what was fed is asked for
    and compared. *)
Lemma next_end (f : SRI.frame IO) :
  truthy (read (SRI.io f) (SRI.chunk f)).1 = false ->
  SRI.next hl (SRI.Suspended f) = (signal_of (frame_verdict hl f []), SRI.Finished).
Proof.
  unfold SRI.next, frame_verdict, verdict.
  destruct (read (SRI.io f) (SRI.chunk f)) as [buffer io'].
  simpl. intros ->. rewrite app_nil_r, <- digest_of_fed.
  destruct (hasher.digest hl (SRI.hasher_ f)) as [d|e]; simpl; [|reflexivity].
  rewrite (proj2 (decode_b64encode d)). simpl.
  now destruct (String.eqb _ _).
Qed.

Lemma truthy_nonempty (buffer : option bytes) :
  truthy buffer = true -> default [] buffer ≠ [].
Proof. destruct buffer as [[|b l]|]; simpl; congruence. Qed.

Lemma drain_signals (fuel : nat) (g : SRI.generator IO) chunks r :
  drain hl fuel g = Some (chunks, r) ->
  (∀ k b, chunks !! k = Some b -> signal_at hl k g = SRI.Yield b)
  ∧ signal_at hl (length chunks) g = signal_of r.
Proof.
  revert g chunks r. induction fuel as [|fuel IH]; intros g chunks r; simpl;
    [discriminate|].
  unfold signal_at.
  destruct (SRI.next hl g) as [[b | | e] g'] eqn:E.
  - destruct (drain hl fuel g') as [[chunks' r']|] eqn:D; [|discriminate].
    intros H0; inversion H0; subst. destruct (IH _ _ _ D) as [IH1 IH2].
    split.
    + intros [|k] b'; simpl.
      * intros Hb; inversion Hb; subst. now rewrite E.
      * intros Hb. rewrite E. simpl. now apply IH1.
    + simpl. rewrite E. simpl. exact IH2.
  - intros H0; inversion H0; subst. split.
    + intros k b Hb. now rewrite lookup_nil in Hb.
    + simpl. now rewrite E.
  - intros H0; inversion H0; subst. split.
    + intros k b Hb. now rewrite lookup_nil in Hb.
    + simpl. now rewrite E.
Qed.

Context `{!FiniteSource IO}.

(** With enough fuel the iteration over a finite source ends; it hands
    over the pending bytes in chunks that are not empty, and ends on the
    comparison of the digest of all that was fed. *)
Lemma drain_finite (fuel : nat) (f : SRI.frame IO) :
  SRI.chunk f ≠ 0%Z ->
  length (pending (SRI.io f)) < fuel ->
  ∃ chunks,
    drain hl fuel (SRI.Suspended f)
      = Some (chunks, frame_verdict hl f (pending (SRI.io f)))
    ∧ concat chunks = pending (SRI.io f)
    ∧ Forall (fun c => c ≠ []) chunks.
Proof.
  revert f. induction fuel as [|fuel IH]; intros f Hc Hlen; [lia|].
  destruct (read_pending (SRI.io f) (SRI.chunk f) Hc) as [Hsplit Hempty].
  cbn [drain].
  destruct (truthy (read (SRI.io f) (SRI.chunk f)).1) eqn:T.
  - rewrite (next_yield f T).
    pose proof (truthy_nonempty _ T) as Hne.
    set (b := default [] (read (SRI.io f) (SRI.chunk f)).1) in *.
    set (io' := (read (SRI.io f) (SRI.chunk f)).2) in *.
    assert (Hlt : length (pending io') < fuel).
    { rewrite Hsplit, length_app in Hlen. destruct b; [congruence|]. simpl in Hlen. lia. }
    destruct (IH (fed_with f b io') Hc Hlt) as (chunks & -> & Hcat & Hall).
    exists (b :: chunks). split; [|split].
    + unfold frame_verdict. simpl. rewrite Hsplit, app_assoc. reflexivity.
    + simpl. now rewrite Hcat, Hsplit.
    + now constructor.
  - rewrite (next_end f T), (Hempty eq_refl).
    exists []. split; [|split; [reflexivity | constructor]].
    now destruct (frame_verdict hl f []) as [[]|e].
Qed.
End check.

Lemma length_string_of_list_byte (l : bytes) :
  String.length (string_of_list_byte l) = length l.
Proof.
  unfold string_of_list_byte. induction l as [|b l IH]; simpl; [reflexivity|].
  now rewrite IH.
Qed.

(** C1, as the code has it.  Over a source that delivers a finite content,
    and with a chunk size other than zero (4096 unless the caller says
    otherwise), the iteration of [sri.check(source)] ends, and the chunks it
    hands over, put end to end, are the content of the source.  Call after
    call, [next] yields the very chunk the source has just delivered; an
    error can only come from the call that finds nothing left to read, which
    is the call after the last chunk.  When the algorithm of the descriptor
    has a digest of a fixed length, so that [digest()] needs no argument,
    and the descriptor stores the base64 digest of the content, that call
    ends the iteration without an error.  When the algorithm needs a length
    (SHAKE), that call raises the [TypeError] of [digest()], whatever the
    content. *)
Theorem check_passes_source_through
    (hl : Hashlib) {IO : Type} {R : HasBinaryRead IO} {F : FiniteSource IO}
    (sri : SRI.t) (src : IO) (chunk : Z) :
  chunk ≠ 0%Z ->
  let g := SRI.check sri src chunk in
  ∃ chunks outcome,
    drain hl (S (length (pending src))) g = Some (chunks, outcome)
    ∧ concat chunks = pending src
    ∧ (∀ k b, chunks !! k = Some b -> signal_at hl k g = SRI.Yield b)
    ∧ signal_at hl (length chunks) g = signal_of outcome
    ∧ (∀ f b io', read (SRI.io f) (SRI.chunk f) = (Some b, io') -> b ≠ [] ->
         SRI.next hl (SRI.Suspended f)
           = (SRI.Yield b, SRI.Suspended (fed_with f b io')))
    ∧ (∀ (f : SRI.frame IO) e,
         SRI.chunk f ≠ 0%Z ->
         (SRI.next hl (SRI.Suspended f)).1 = SRI.Throw e ->
         pending (SRI.io f) = [])
    ∧ (needs_length hl (SRI.algorithm sri) = false ->
       SRI.checksum sri = b64text (hash hl (SRI.algorithm sri) (pending src)) ->
       outcome = Ok tt)
    ∧ (needs_length hl (SRI.algorithm sri) = true ->
       outcome = Raise (Builtin Cls.TypeError
                          "digest() missing required argument 'length' (pos 1)")).
Proof.
  intros Hc g.
  set (f0 := {| SRI.self := sri; SRI.hasher_ := hasher.new (SRI.algorithm sri);
                SRI.io := src; SRI.chunk := chunk |}).
  destruct (drain_finite hl (S (length (pending src))) f0 Hc (Nat.lt_succ_diag_r _))
    as (chunks & Hd & Hcat & _).
  exists chunks, (frame_verdict hl f0 (pending src)).
  destruct (drain_signals hl _ _ _ _ Hd) as [Hy He].
  split; [exact Hd|]. split; [exact Hcat|]. split; [exact Hy|]. split; [exact He|].
  split; [|split; [|split]].
  - intros f b io' Hr Hb. rewrite next_yield; rewrite Hr; simpl; [reflexivity|].
    now destruct b.
  - intros f e Hcf Hn.
    destruct (truthy (read (SRI.io f) (SRI.chunk f)).1) eqn:T.
    + rewrite (next_yield hl f T) in Hn. discriminate.
    + now apply (read_pending (SRI.io f) (SRI.chunk f) Hcf).
  - intros Hfix Hm. apply (verdict_match _ _ _ _ (hash hl (SRI.algorithm sri) (pending src))).
    + rewrite digest_of_cases. simpl. now rewrite Hfix.
    + exact Hm.
  - intros Hx. apply verdict_raise. rewrite digest_of_cases. simpl. now rewrite Hx.
Qed.

(** The shell script of the tests, read in chunks of 4096 bytes through the
    check of its own descriptor. *)
Lemma check_passes_source_through_witness :
  SRI.default_chunk ≠ 0%Z
  ∧ ∃ chunks,
      drain testbed.sha256_only (S (length testbed.shellscript))
        (SRI.check shell_sri testbed.shellscript SRI.default_chunk) = Some (chunks, Ok tt)
      ∧ concat chunks = testbed.shellscript.
Proof.
  assert (Hc : SRI.default_chunk ≠ 0%Z) by (unfold SRI.default_chunk; lia).
  split; [exact Hc|].
  destruct (check_passes_source_through testbed.sha256_only shell_sri
              testbed.shellscript SRI.default_chunk Hc)
    as (chunks & outcome & Hd & Hcat & _ & _ & _ & _ & Hok & _).
  exists chunks. split; [|exact Hcat].
  rewrite <- (Hok eq_refl eq_refl). exact Hd.
Defined.

(** C1, as the claim states it, fails for the descriptor "shake_128-".
    The descriptor parses: SHAKE128 is available, and the empty digest it
    stores has the length that [hashlib] gives as the digest size of the
    algorithm, which is 0.  That digest is the digest of length 0 of the
    shell script of the tests, as of any bytes.  Yet the iteration of the
    check over the script hands the script over and then raises the
    [TypeError] of [digest()] called without a length. *)
Lemma shake_descriptor_never_verifies :
  let rt := shake_host [] in
  SRI.init rt "shake_128-" = Ok shake_sri
  ∧ "shake_128" ∈ algorithms_available (hashlib rt)
  ∧ digest_size (hashlib rt) "shake_128" = 0
  ∧ SRI.checksum shake_sri
    = b64text (hash (hashlib rt) (SRI.algorithm shake_sri) testbed.shellscript)
  ∧ drain (hashlib rt) (S (length testbed.shellscript))
      (SRI.check shake_sri testbed.shellscript SRI.default_chunk)
    = Some ([testbed.shellscript],
            Raise (Builtin Cls.TypeError
                     "digest() missing required argument 'length' (pos 1)")).
Proof.
  intros rt. split; [vm_compute; reflexivity|].
  split; [cbn; set_solver|].
  split; [reflexivity|]. split; vm_compute; reflexivity.
Qed.

(** C2.  The call of [next] that finds nothing left to read asks the hash
    object for the digest of what it was fed.  When [digest()] returns, the
    call compares the stored digest with the base64 text of that digest:
    four characters for every three bytes or part of three, and nothing
    after them.  When the two differ it raises a [ChecksumMismatchError]
    whose [expected] is the stored digest and whose [actual] is that text;
    over a finite source, what was fed is what was read and handed over.
    When [digest()] raises, its error ends the iteration and nothing is
    compared.  No failure of [SRI(value)] is an instance of
    [ChecksumMismatchError]. *)
Theorem check_compares_plain_base64
    (hl : Hashlib) {IO : Type} {R : HasBinaryRead IO} {F : FiniteSource IO}
    (sri : SRI.t) (src : IO) (chunk : Z) :
  chunk ≠ 0%Z ->
  (∀ f : SRI.frame IO,
     truthy (read (SRI.io f) (SRI.chunk f)).1 = false ->
     let stored := SRI.checksum (SRI.self f) in
     (∀ d, hasher.digest hl (SRI.hasher_ f) = Ok d ->
        let digest := string_of_list_byte (base64.b64encode d) in
        String.length digest = 4 * ((length d + 2) / 3)
        ∧ SRI.next hl (SRI.Suspended f) =
            (if String.eqb digest stored then SRI.StopIteration
             else SRI.Throw (Mismatch {| expected := stored; actual := digest;
                                         message := "checksum mismatch" |}),
             SRI.Finished))
     ∧ (∀ e, hasher.digest hl (SRI.hasher_ f) = Raise e ->
          SRI.next hl (SRI.Suspended f) = (SRI.Throw e, SRI.Finished)))
  ∧ (∃ chunks outcome,
       drain hl (S (length (pending src))) (SRI.check sri src chunk)
         = Some (chunks, outcome)
       ∧ (∀ d, digest_of hl (SRI.algorithm sri) (concat chunks) = Ok d ->
            let digest := b64text d in
            (digest = SRI.checksum sri -> outcome = Ok tt)
            ∧ (digest ≠ SRI.checksum sri ->
               outcome = Raise (Mismatch {| expected := SRI.checksum sri;
                                            actual := digest;
                                            message := "checksum mismatch" |})))
       ∧ (∀ e, digest_of hl (SRI.algorithm sri) (concat chunks) = Raise e ->
            outcome = Raise e))
  ∧ (∀ m, class_of (Mismatch m) = Cls.ChecksumMismatchError)
  ∧ (∀ rt v e, SRI.init rt v = Raise e ->
       catches Cls.ChecksumMismatchError e = false).
Proof.
  intros Hc. split; [|split; [|split]].
  - intros f T stored. split.
    + intros d Hd digest. split.
      * unfold digest. now rewrite length_string_of_list_byte, b64encode_length.
      * rewrite (next_end hl f T). unfold frame_verdict, verdict.
        rewrite app_nil_r, <- digest_of_fed, Hd. simpl.
        unfold mismatch, b64text. fold digest. fold stored.
        now destruct (String.eqb digest stored).
    + intros e He. rewrite (next_end hl f T). unfold frame_verdict, verdict.
      now rewrite app_nil_r, <- digest_of_fed, He.
  - set (f0 := {| SRI.self := sri; SRI.hasher_ := hasher.new (SRI.algorithm sri);
                  SRI.io := src; SRI.chunk := chunk |}).
    destruct (drain_finite hl (S (length (pending src))) f0 Hc (Nat.lt_succ_diag_r _))
      as (chunks & Hd & Hcat & _).
    exists chunks, (frame_verdict hl f0 (pending src)). split; [exact Hd|].
    rewrite Hcat. unfold frame_verdict. simpl. split.
    + intros d Hdig. cbv zeta. split.
      * intros Hm. apply (verdict_match _ _ _ _ d); [exact Hdig | now symmetry].
      * intros Hm. now apply (verdict_mismatch _ _ _ _ d).
    + intros e He. now apply verdict_raise.
  - reflexivity.
  - intros rt v e H. eapply ValueError_not_mismatch, SRI_init_raise, H.
Qed.

(** The shell script of the tests against the descriptor of
    [deps_wrong_checksum]: [actual] is the digest of the script, as the
    tests expect. *)
Lemma check_compares_plain_base64_witness :
  SRI.default_chunk ≠ 0%Z
  ∧ ∃ chunks,
      drain testbed.sha256_only (S (length testbed.shellscript))
        (SRI.check wrong_sri testbed.shellscript SRI.default_chunk)
      = Some (chunks,
              Raise (Mismatch {| expected := SRI.checksum wrong_sri;
                                 actual := testbed.shell_checksum;
                                 message := "checksum mismatch" |})).
Proof.
  assert (Hc : SRI.default_chunk ≠ 0%Z) by (unfold SRI.default_chunk; lia).
  split; [exact Hc|].
  destruct (proj1 (proj2 (check_compares_plain_base64 testbed.sha256_only wrong_sri
                            testbed.shellscript SRI.default_chunk Hc)))
    as (chunks & outcome & Hd & Hok & _).
  exists chunks.
  assert (Hcat : concat chunks = testbed.shellscript).
  { pose proof Hd as Hd'. vm_compute in Hd'. inversion Hd'. reflexivity. }
  rewrite Hcat in Hok.
  assert (Hdig : digest_of testbed.sha256_only (SRI.algorithm wrong_sri)
                   testbed.shellscript
                 = Ok (sha256.digest testbed.shellscript)) by reflexivity.
  assert (Ho : outcome = Raise (Mismatch {| expected := SRI.checksum wrong_sri;
                                            actual := testbed.shell_checksum;
                                            message := "checksum mismatch" |})).
  { apply (proj2 (Hok _ Hdig)). vm_compute. discriminate. }
  rewrite <- Ho. exact Hd.
Defined.

(** ** System calls *)

Lemma error_not_mismatch (k : errno.t) (path : string) :
  catches Cls.ChecksumMismatchError (os.error k path) = false
  ∧ catches Cls.OSError (os.error k path) = true.
Proof. now destruct k. Qed.

Lemma stored_stored (path : string) (c c' : bytes) (m m' : Z) (w : World) :
  stored path c m (stored path c' m' w) = stored path c m w.
Proof. unfold stored. simpl. now rewrite insert_insert_eq. Qed.

Section calls.
Variable rt : Runtime.

Lemma mkdir_cases (path : string) (w : World) :
  os.mkdir rt path w =
    match refuses rt w (Mkdir path) with
    | Some k => (Raise (os.error k path), w)
    | None => (Ok tt, with_dir path w)
    end.
Proof. reflexivity. Qed.

Lemma open_w_cases (path : string) (w : World) :
  os.open_w rt path w =
    match refuses rt w (OpenW path) with
    | Some k => (Raise (os.error k path), w)
    | None => (Ok tt, stored path [] (mode_on_open rt path w) w)
    end.
Proof. reflexivity. Qed.

Lemma write_cases (path : string) (buffer c : bytes) (m : Z) (w : World) :
  os.write rt path buffer (stored path c m w) =
    match refuses rt (stored path c m w) (Write path buffer) with
    | Some k => (Raise (os.error k path), stored path c m w)
    | None => (Ok tt, stored path (c ++ buffer) m w)
    end.
Proof.
  unfold os.write, os.call. destruct (refuses rt _ _); [reflexivity|].
  unfold stored. simpl. now rewrite alter_insert_eq.
Qed.

Lemma chmod_cases (path : string) (c : bytes) (m m' : Z) (w : World) :
  os.chmod rt path m' (stored path c m w) =
    match refuses rt (stored path c m w) (Chmod path m') with
    | Some k => (Raise (os.error k path), stored path c m w)
    | None => (Ok tt, stored path c m' w)
    end.
Proof.
  unfold os.chmod, os.call. destruct (refuses rt _ _); [reflexivity|].
  unfold stored. simpl. rewrite lookup_insert_eq. simpl. now rewrite insert_insert_eq.
Qed.

End calls.

(** ** Loops over the check *)



(** The loop that writes the chunks of a finite source to a file ends,
    with enough fuel. *)
Lemma for_in_write {IO} `{FiniteSource IO} (rt : Runtime) (path : string) (m : Z)
    (w : World) (fuel : nat) :
  ∀ (f : SRI.frame IO) (c : bytes),
    SRI.chunk f ≠ 0%Z ->
    length (pending (SRI.io f)) < fuel ->
    ∃ written r,
      for_in (hashlib rt) fuel (SRI.Suspended f)
        (fun buffer => os.write rt path buffer) (stored path c m w)
      = Some (r, stored path (c ++ written) m w)
      ∧ written_or_refused rt path c m w (pending (SRI.io f))
          (frame_verdict (hashlib rt) f (pending (SRI.io f))) written r.
Proof.
  induction fuel as [|fuel IH]; intros f c Hc Hlen; [lia|].
  destruct (read_pending (SRI.io f) (SRI.chunk f) Hc) as [Hsplit Hempty].
  cbn [for_in].
  destruct (truthy (read (SRI.io f) (SRI.chunk f)).1) eqn:T.
  - rewrite (next_yield (hashlib rt) f T).
    pose proof (truthy_nonempty _ T) as Hne.
    set (b := default [] (read (SRI.io f) (SRI.chunk f)).1) in *.
    set (io' := (read (SRI.io f) (SRI.chunk f)).2) in *.
    rewrite write_cases.
    destruct (refuses rt (stored path c m w) (Write path b)) as [k|] eqn:Hw.
    + exists [], (Raise (os.error k path)). rewrite app_nil_r. split; [reflexivity|].
      right. exists b, (pending io'), k. rewrite app_nil_r. now rewrite Hsplit.
    + assert (Hlt : length (pending io') < fuel).
      { rewrite Hsplit, length_app in Hlen. destruct b; [congruence|].
        simpl in Hlen. lia. }
      destruct (IH (fed_with f b io') (c ++ b) Hc Hlt) as (written & r & -> & Hend).
      exists (b ++ written), r. rewrite app_assoc. split; [reflexivity|].
      destruct Hend as [[-> ->] | (b' & rest & k & Hp & Hk & ->)].
      * left. split; [now rewrite Hsplit|].
        unfold frame_verdict. simpl. now rewrite Hsplit, app_assoc.
      * right. exists b', rest, k. simpl in Hp. rewrite Hsplit, Hp.
        rewrite <- !app_assoc. split; [reflexivity|]. split; [|reflexivity].
        now rewrite <- app_assoc in Hk.
  - rewrite (next_end (hashlib rt) f T), (Hempty eq_refl).
    exists [], (frame_verdict (hashlib rt) f []). rewrite app_nil_r.
    split; [|now left].
    now destruct (frame_verdict (hashlib rt) f []) as [[]|e].
Qed.

(** ** The download *)

Section download_facts.
Variable rt : Runtime.

(** What a download does when the URL opens.  The system refuses to open
    the destination and nothing is written; or the body is written to it,
    as far as the system lets it be, and the permission bits are set when
    all of it was written and the check passes. *)
Lemma download_opened (uri : URI.t) (sri : SRI.t) (filename : string)
    (payload : bytes) (w : World) :
  urlopen rt (URI.str uri) = Ok payload ->
  let m := mode_on_open rt filename w in
  match refuses rt w (OpenW filename) with
  | Some k => download rt uri sri filename w = (Raise (os.error k filename), w)
  | None =>
      ∃ written r,
        written_or_refused rt filename [] m w payload
          (verdict (hashlib rt) (SRI.algorithm sri) sri payload) written r
        ∧ download rt uri sri filename w =
            match r with
            | Ok _ =>
                os.chmod rt filename (Z.lor stat.S_IRUSR stat.S_IXUSR)
                  (stored filename written m w)
            | Raise e => (Raise e, stored filename written m w)
            end
  end.
Proof.
  intros Hopen m. unfold download.
  cbv beta iota delta [mbind M_bind lift]. rewrite Hopen, open_w_cases.
  destruct (refuses rt w (OpenW filename)) as [k|]; [reflexivity|].
  fold m. unfold for_in_stream, SRI.check, calls. cbn [SRI.io].
  set (f0 := {| SRI.self := sri; SRI.hasher_ := hasher.new (SRI.algorithm sri);
                SRI.io := payload; SRI.chunk := SRI.default_chunk |}).
  assert (Hc : SRI.chunk f0 ≠ 0%Z) by (simpl; unfold SRI.default_chunk; lia).
  assert (Hlt : length (pending (SRI.io f0)) < S (length payload)) by (simpl; lia).
  destruct (for_in_write rt filename m w (S (length payload)) f0 [] Hc Hlt)
    as (written & r & -> & Hend).
  exists written, r. split; [exact Hend|].
  now destruct r as [[]|e].
Qed.

Lemma download_closed (uri : URI.t) (sri : SRI.t) (filename : string)
    (e : exn) (w : World) :
  urlopen rt (URI.str uri) = Raise e ->
  download rt uri sri filename w = (Raise e, w).
Proof.
  intros Hopen. unfold download. cbv beta iota delta [mbind M_bind lift].
  now rewrite Hopen.
Qed.

(** A download that ends without an error has written the whole body,
    checked it and set the permission bits. *)
Lemma download_ok_inv (uri : URI.t) (sri : SRI.t) (filename : string)
    (w w' : World) :
  download rt uri sri filename w = (Ok tt, w') ->
  ∃ payload,
    urlopen rt (URI.str uri) = Ok payload
    ∧ verdict (hashlib rt) (SRI.algorithm sri) sri payload = Ok tt
    ∧ w' = stored filename payload (Z.lor stat.S_IRUSR stat.S_IXUSR) w.
Proof.
  intros H.
  destruct (urlopen rt (URI.str uri)) as [payload|e] eqn:Ho;
    [|rewrite (download_closed uri sri filename e w Ho) in H; discriminate].
  exists payload. split; [reflexivity|].
  pose proof (download_opened uri sri filename payload w Ho) as D. cbv zeta in D.
  destruct (refuses rt w (OpenW filename)) as [k|]; [rewrite D in H; discriminate|].
  destruct D as (written & r & Hend & D). rewrite D in H.
  destruct r as [[]|e]; [|discriminate].
  destruct Hend as [[-> Hv] | (b & rest & k & _ & _ & Hr)]; [|discriminate].
  split; [now symmetry|].
  rewrite chmod_cases in H. destruct (refuses rt _ _); [discriminate|].
  now inversion H.
Qed.

(** A download that raises a [ChecksumMismatchError] has written the
    whole body, and left the permission bits as they were when the file was
    opened. *)
Lemma download_mismatch_inv (uri : URI.t) (sri : SRI.t) (filename : string)
    (payload : bytes) (e : exn) (w w' : World) :
  urlopen rt (URI.str uri) = Ok payload ->
  download rt uri sri filename w = (Raise e, w') ->
  catches Cls.ChecksumMismatchError e = true ->
  verdict (hashlib rt) (SRI.algorithm sri) sri payload = Raise e
  ∧ w' = stored filename payload (mode_on_open rt filename w) w.
Proof.
  intros Ho H He.
  pose proof (download_opened uri sri filename payload w Ho) as D. cbv zeta in D.
  destruct (refuses rt w (OpenW filename)) as [k|].
  { rewrite D in H. inversion H; subst.
    now rewrite (proj1 (error_not_mismatch k filename)) in He. }
  destruct D as (written & r & Hend & D). rewrite D in H.
  destruct Hend as [[-> Hv] | (b & rest & k & _ & _ & ->)].
  - destruct r as [[]|e'].
    + rewrite chmod_cases in H. destruct (refuses rt _ _) as [k|]; [|discriminate].
      inversion H; subst. now rewrite (proj1 (error_not_mismatch k filename)) in He.
    + inversion H; subst. split; [now symmetry | reflexivity].
  - inversion H; subst. now rewrite (proj1 (error_not_mismatch k filename)) in He.
Qed.

(** A download to a file that the system lets be written ends as the
    check of the body does. *)
Lemma download_written (uri : URI.t) (sri : SRI.t) (filename : string)
    (payload : bytes) (w : World) :
  urlopen rt (URI.str uri) = Ok payload ->
  writable rt w filename ->
  download rt uri sri filename w =
    match verdict (hashlib rt) (SRI.algorithm sri) sri payload with
    | Ok _ =>
        os.chmod rt filename (Z.lor stat.S_IRUSR stat.S_IXUSR)
          (stored filename payload (mode_on_open rt filename w) w)
    | Raise e => (Raise e, stored filename payload (mode_on_open rt filename w) w)
    end.
Proof.
  intros Ho [Hw Hwr].
  pose proof (download_opened uri sri filename payload w Ho) as D. cbv zeta in D.
  rewrite Hw in D. destruct D as (written & r & Hend & ->).
  destruct Hend as [[-> ->] | (b & rest & k & _ & Hk & _)]; [reflexivity|].
  simpl in Hk. now rewrite Hwr in Hk.
Qed.
End download_facts.

(** ** The installer *)



Section install_facts.
Variable rt : Runtime.
Variables prefix version : string.

Lemma install_scan_skip (host : Platform.t) (all pre rest : list string) (w : World) :
  Forall (differs host) pre ->
  install_scan rt host prefix version all (pre ++ rest) w
  = install_scan rt host prefix version all rest w.
Proof.
  induction 1 as [|dep pre (p & Hp & He) _ IH]; [reflexivity|].
  simpl. cbv beta iota delta [mbind M_bind lift].
  unfold entry_platform in Hp. now rewrite Hp, He.
Qed.

Lemma install_scan_match (host : Platform.t) (all post : list string) (dep : string)
    (w : World) :
  matches host dep ->
  install_scan rt host prefix version all (dep :: post) w
  = install_entry rt prefix version {| Metadata.value := dep |} w.
Proof.
  intros (p & Hp & He). simpl. cbv beta iota delta [mbind M_bind lift].
  unfold entry_platform in Hp. now rewrite Hp, He.
Qed.

Lemma install_selected (deps : list string) (dep : string) (w : World) :
  selects rt deps dep ->
  install_environment rt prefix version deps w
  = install_entry rt prefix version {| Metadata.value := dep |} w.
Proof.
  intros (host & pre & post & Hh & -> & Hpre & Hm).
  unfold install_environment. cbv beta iota delta [mbind M_bind lift].
  rewrite Hh. cbv beta iota.
  now rewrite (install_scan_skip host _ pre _ w Hpre), (install_scan_match host _ post dep w Hm).
Qed.

(** The steps of installing an entry whose fields parse: the directory is
    made, the artifact downloaded, and the record written. *)
Lemma install_entry_parsed (m : Metadata.t) (fname : string) (uri : URI.t)
    (sri : SRI.t) (w : World) :
  Metadata.filename rt m = Ok fname ->
  Metadata.uri rt m = Ok uri ->
  Metadata.sri rt m = Ok sri ->
  let envdir := envdir_of rt prefix version in
  let srisum := joinpath rt envdir "health.srisum" in
  let dest := joinpath rt envdir fname in
  install_entry rt prefix version m w =
    match refuses rt w (Mkdir envdir) with
    | Some k => (Raise (os.error k envdir), w)
    | None =>
        match download rt uri sri dest (with_dir envdir w) with
        | (Ok _, w2) =>
            match refuses rt w2 (OpenW srisum) with
            | Some k => (Raise (os.error k srisum), w2)
            | None =>
                os.write rt srisum (record_line rt sri fname)
                  (stored srisum [] (mode_on_open rt srisum w2) w2)
            end
        | (Raise e, w2) => (Raise e, w2)
        end
    end.
Proof.
  intros Hf Hu Hs envdir srisum dest. unfold install_entry.
  cbv beta iota zeta delta [mbind M_bind lift]. rewrite mkdir_cases.
  fold envdir. destruct (refuses rt w (Mkdir envdir)) as [k|]; [reflexivity|].
  rewrite Hf, Hu, Hs. cbv beta iota. fold dest.
  destruct (download rt uri sri dest (with_dir envdir w)) as [[[]|e] w2];
    [|reflexivity].
  fold srisum. rewrite open_w_cases.
  destruct (refuses rt w2 (OpenW srisum)) as [k|]; reflexivity.
Qed.

Lemma install_entry_ok_inv (m : Metadata.t) (w w' : World) :
  install_entry rt prefix version m w = (Ok tt, w') ->
  ∃ fname uri sri,
    Metadata.filename rt m = Ok fname
    ∧ Metadata.uri rt m = Ok uri
    ∧ Metadata.sri rt m = Ok sri.
Proof.
  intros H. unfold install_entry in H.
  cbv beta iota zeta delta [mbind M_bind lift] in H.
  destruct (os.mkdir rt _ w) as [[[]|e0] w0]; [|discriminate].
  destruct (Metadata.filename rt m) as [fname|e1]; [|discriminate].
  destruct (Metadata.uri rt m) as [uri|e2]; [|discriminate].
  destruct (Metadata.sri rt m) as [sri|e3]; [|discriminate].
  now exists fname, uri, sri.
Qed.
End install_facts.

(** ** [repr] on plain text *)





Section repr_plain.
Variable printable : N -> bool.

Local Abbreviation esc := (fun c => Str.repr_char printable "'" (single c)).




End repr_plain.

(** ** The installer: selection of the entry *)



(** ** The installer: a check that fails *)

(** C3, as the code has it.  Let a manifest select an entry whose fields
    parse and whose URL opens, and let the body served not have the digest
    of the entry.  Then [install_environment] does not end without an
    error.  When the system lets the directory be made and the destination
    be opened and written, it raises the [ChecksumMismatchError] with the
    digest of the entry as [expected] and that of the body as [actual].
    Whenever it raises a [ChecksumMismatchError] it is this one, the
    destination file is left with the whole body and the permission bits it
    was opened with, and no other file is touched.  So the sidecar file is
    as it was before the install, provided it is not the destination file
    itself. *)
Theorem failed_install_writes_no_record
    (rt : Runtime) (prefix version : string) (deps : list string)
    (dep fname : string) (uri : URI.t) (sri : SRI.t) (payload : bytes) (w : World) :
  let m := {| Metadata.value := dep |} in
  let envdir := envdir_of rt prefix version in
  let dest := joinpath rt envdir fname in
  let srisum := joinpath rt envdir "health.srisum" in
  let digest := b64text (hash (hashlib rt) (SRI.algorithm sri) payload) in
  let error := Mismatch {| expected := SRI.checksum sri; actual := digest;
                           message := "checksum mismatch" |} in
  selects rt deps dep ->
  Metadata.filename rt m = Ok fname ->
  Metadata.uri rt m = Ok uri ->
  Metadata.sri rt m = Ok sri ->
  urlopen rt (URI.str uri) = Ok payload ->
  (digest ≠ SRI.checksum sri ->
   ∀ w', install_environment rt prefix version deps w ≠ (Ok tt, w'))
  ∧ (digest ≠ SRI.checksum sri ->
     needs_length (hashlib rt) (SRI.algorithm sri) = false ->
     refuses rt w (Mkdir envdir) = None ->
     writable rt (with_dir envdir w) dest ->
     install_environment rt prefix version deps w =
       (Raise error, stored dest payload (mode_on_open rt dest w) (with_dir envdir w)))
  ∧ (∀ e w',
       install_environment rt prefix version deps w = (Raise e, w') ->
       catches Cls.ChecksumMismatchError e = true ->
       e = error
       ∧ digest ≠ SRI.checksum sri
       ∧ fs w' !! dest = Some {| content := payload; mode := mode_on_open rt dest w |}
       ∧ (∀ path, path ≠ dest -> fs w' !! path = fs w !! path)
       ∧ (dest ≠ srisum -> fs w' !! srisum = fs w !! srisum)).
Proof.
  intros m envdir dest srisum digest error Hsel Hf Hu Hs Ho. subst m.
  rewrite (install_selected rt prefix version deps dep w Hsel).
  rewrite (install_entry_parsed rt prefix version _ fname uri sri w Hf Hu Hs).
  cbv zeta. fold envdir. fold dest. fold srisum.
  split; [|split].
  - intros Hne w' H.
    destruct (refuses rt w (Mkdir envdir)) as [k|]; [discriminate|].
    destruct (download rt uri sri dest (with_dir envdir w)) as [[[]|e] w2] eqn:D;
      [|discriminate].
    apply download_ok_inv in D as (payload' & Ho' & Hv & _).
    rewrite Ho in Ho'. inversion Ho'; subst payload'.
    apply verdict_ok_inv in Hv as [_ Hv]. now apply Hne.
  - intros Hne Hfix Hmk Hwr. rewrite Hmk.
    rewrite (download_written rt uri sri dest payload _ Ho Hwr).
    rewrite (verdict_mismatch _ _ _ _ (hash (hashlib rt) (SRI.algorithm sri) payload)).
    + reflexivity.
    + rewrite digest_of_cases. now rewrite Hfix.
    + exact Hne.
  - intros e w' H He.
    destruct (refuses rt w (Mkdir envdir)) as [k|].
    { inversion H; subst. now rewrite (proj1 (error_not_mismatch k envdir)) in He. }
    destruct (download rt uri sri dest (with_dir envdir w)) as [[[]|e'] w2] eqn:D.
    + destruct (refuses rt w2 (OpenW srisum)) as [k|].
      { inversion H; subst. now rewrite (proj1 (error_not_mismatch k srisum)) in He. }
      rewrite write_cases in H. destruct (refuses rt _ _) as [k|]; [|discriminate].
      inversion H; subst. now rewrite (proj1 (error_not_mismatch k srisum)) in He.
    + inversion H; subst e' w2.
      destruct (download_mismatch_inv rt uri sri dest payload e _ w' Ho D He)
        as [Hv ->].
      destruct (verdict_mismatch_inv _ _ _ _ _ Hv He) as (_ & Hne & ->).
      split; [reflexivity|]. split; [exact Hne|].
      unfold stored. simpl. split; [apply lookup_insert_eq|]. split.
      * intros path Hp. now apply lookup_insert_ne.
      * intros Hp. now apply lookup_insert_ne.
Qed.

(** The test [deps_wrong_checksum]: the install fails on the script served,
    and no sidecar file is there afterwards. *)
Lemma failed_install_writes_no_record_witness :
  let rt := testbed.runtime testbed.shellscript in
  selects rt testbed.deps_wrong_checksum (hd EmptyString testbed.deps_wrong_checksum)
  ∧ ∃ w',
      install_environment rt "/prefix" "default" testbed.deps_wrong_checksum
        testbed.empty
      = (Raise (Mismatch {| expected := SRI.checksum wrong_sri;
                            actual := testbed.shell_checksum;
                            message := "checksum mismatch" |}), w')
      ∧ fs w' !! "/prefix/download-default/test.bat"
        = Some {| content := testbed.shellscript; mode := 0x1a4 |}
      ∧ fs w' !! "/prefix/download-default/health.srisum" = None.
Proof.
  intros rt.
  assert (Hsel : selects rt testbed.deps_wrong_checksum
                   (hd EmptyString testbed.deps_wrong_checksum)).
  { exists linux_amd64, [], (tl testbed.deps_wrong_checksum).
    split; [reflexivity|]. split; [reflexivity|]. split; [constructor|].
    exists linux_amd64. split; reflexivity. }
  split; [exact Hsel|].
  destruct (failed_install_writes_no_record rt "/prefix" "default"
              testbed.deps_wrong_checksum (hd EmptyString testbed.deps_wrong_checksum)
              "test.bat" {| URI.value := "http://127.0.0.1:5555" |} wrong_sri
              testbed.shellscript testbed.empty Hsel eq_refl eq_refl eq_refl eq_refl)
    as (_ & Hraise & Hleft).
  assert (Hne : b64text (hash (hashlib rt) (SRI.algorithm wrong_sri) testbed.shellscript)
                ≠ SRI.checksum wrong_sri) by (vm_compute; discriminate).
  assert (Hwr : writable rt
                  (with_dir (envdir_of rt "/prefix" "default") testbed.empty)
                  (joinpath rt (envdir_of rt "/prefix" "default") "test.bat")).
  { split; [vm_compute; reflexivity | intros written buffer; reflexivity]. }
  pose proof (Hraise Hne eq_refl eq_refl Hwr) as Hi.
  eexists. split; [exact Hi|].
  destruct (Hleft _ _ Hi eq_refl) as (_ & _ & Hd & _ & Hr).
  split; [exact Hd|]. apply Hr. vm_compute. discriminate.
Defined.

(** C3, as the claim states it, fails for a manifest whose destination is
    the sidecar file.  The server answers with an empty body, the check
    fails, and the empty file left at the sidecar's path, where there was
    none, is a record that the health check reads and accepts. *)
Lemma failed_install_can_leave_a_record :
  let rt := testbed.runtime [] in
  let deps := [testbed.entry "linux/amd64" ("sha256-" +:+ testbed.shell_checksum)
                 "http://127.0.0.1:5555" "health.srisum"] in
  let srisum := "/prefix/download-default/health.srisum" in
  ∃ w',
    install_environment rt "/prefix" "default" deps testbed.empty
    = (Raise (Mismatch {| expected := testbed.shell_checksum;
                          actual := "47DEQpj8HBSa+/TImW+5JCeuQeRkm5NMpJWZG3hSuFU=";
                          message := "checksum mismatch" |}), w')
    ∧ fs testbed.empty !! srisum = None
    ∧ fs w' !! srisum = Some {| content := []; mode := 0x1a4 |}
    ∧ health_check rt "/prefix" "default" w' = (Ok None, w').
Proof.
  intros rt deps srisum.
  exists (install_environment rt "/prefix" "default" deps testbed.empty).2.
  split; [|split; [|split]]; vm_compute; reflexivity.
Qed.

(** ** The installer: the permission bits *)

(** C8.  A download that ends without an error has verified the body it
    wrote, and leaves the file with the permission bits
    [S_IRUSR | S_IXUSR], which is 0o500: read and execute for the owner, no
    write bit, nothing for group and others.  [chmod] is the step that
    follows the verified write, so these are the bits of the artifact when
    [install_environment] ends without an error too. *)
Theorem verified_download_is_owner_read_execute (rt : Runtime) :
  (∀ uri sri filename w w',
     download rt uri sri filename w = (Ok tt, w') ->
     ∃ payload f,
       urlopen rt (URI.str uri) = Ok payload
       ∧ b64text (hash (hashlib rt) (SRI.algorithm sri) payload) = SRI.checksum sri
       ∧ fs w' !! filename = Some f
       ∧ content f = payload
       ∧ mode f = Z.lor stat.S_IRUSR stat.S_IXUSR
       ∧ mode f = 0x140%Z                      (* 0o500 *)
       ∧ Z.land (mode f) 0x92 = 0%Z            (* 0o222: no write bit *)
       ∧ Z.land (mode f) 0x3f = 0%Z)           (* 0o077: nothing for group, others *)
  ∧ (∀ prefix version deps dep fname w w',
       selects rt deps dep ->
       Metadata.filename rt {| Metadata.value := dep |} = Ok fname ->
       install_environment rt prefix version deps w = (Ok tt, w') ->
       ∃ f, fs w' !! joinpath rt (envdir_of rt prefix version) fname = Some f
            ∧ mode f = 0x140%Z).
Proof.
  split.
  - intros uri sri filename w w' H.
    apply download_ok_inv in H as (payload & Ho & Hv & ->).
    apply verdict_ok_inv in Hv as [_ Hv].
    eexists payload, _. split; [exact Ho|]. split; [exact Hv|].
    split; [apply lookup_insert_eq|]. repeat split.
  - intros prefix version deps dep fname w w' Hsel Hf H.
    rewrite (install_selected rt prefix version deps dep w Hsel) in H.
    destruct (install_entry_ok_inv rt prefix version _ w w' H)
      as (fname' & uri & sri & Hf' & Hu & Hs).
    rewrite Hf in Hf'. inversion Hf'; subst fname'.
    rewrite (install_entry_parsed rt prefix version _ fname uri sri w Hf Hu Hs) in H.
    cbv zeta in H.
    set (envdir := envdir_of rt prefix version) in *.
    set (dest := joinpath rt envdir fname) in *.
    set (srisum := joinpath rt envdir "health.srisum") in *.
    destruct (refuses rt w (Mkdir envdir)) as [k|]; [discriminate|].
    destruct (download rt uri sri dest (with_dir envdir w)) as [[[]|e] w2] eqn:D;
      [|discriminate].
    apply download_ok_inv in D as (payload & _ & _ & ->).
    destruct (refuses rt _ (OpenW srisum)) as [k|]; [discriminate|].
    rewrite write_cases in H. destruct (refuses rt _ _) as [k|]; [discriminate|].
    inversion H; subst w'. unfold stored, mode_on_open. simpl.
    destruct (decide (srisum = dest)) as [E|E].
    + rewrite E, !lookup_insert_eq. eexists. split; reflexivity.
    + rewrite lookup_insert_ne, lookup_insert_eq by exact E.
      eexists. split; reflexivity.
Qed.

(** The install of the test [healthy_dependencies]. *)
Lemma verified_download_is_owner_read_execute_witness :
  let rt := testbed.runtime testbed.shellscript in
  let w' := (install_environment rt "/prefix" "default" testbed.healthy_dependencies
               testbed.empty).2 in
  selects rt testbed.healthy_dependencies linux_entry
  ∧ install_environment rt "/prefix" "default" testbed.healthy_dependencies
      testbed.empty = (Ok tt, w')
  ∧ ∃ f, fs w' !! "/prefix/download-default/test.bat" = Some f ∧ mode f = 0x140%Z.
Proof.
  intros rt w'.
  assert (Hsel : selects rt testbed.healthy_dependencies linux_entry).
  { exists linux_amd64, [], [windows_entry].
    split; [reflexivity|]. split; [reflexivity|]. split; [constructor|].
    exists linux_amd64. split; reflexivity. }
  assert (Hi : install_environment rt "/prefix" "default"
                 testbed.healthy_dependencies testbed.empty = (Ok tt, w'))
    by (vm_compute; reflexivity).
  split; [exact Hsel|]. split; [exact Hi|].
  exact (proj2 (verified_download_is_owner_read_execute rt) "/prefix" "default"
           testbed.healthy_dependencies linux_entry "test.bat" testbed.empty w'
           Hsel eq_refl Hi).
Defined.

(** ** The health check *)


Section health_facts.
Variable rt : Runtime.



End health_facts.



(** ** The library functions on examples

    The values are those of CPython 3.11. *)

Ltac conjuncts := repeat match goal with |- _ ∧ _ => split end.

Example strip_examples :
  Str.strip (" " +:+ Str.utf8 0x3000 +:+ "a b" +:+ Str.utf8 0x85 +:+ Str.utf8 0xa0
               +:+ Str.nl) = "a b"
  ∧ Str.strip (String (Str.chr 0x1f) "a ") = "a"
  ∧ Str.strip (Str.utf8 0x200b +:+ "x" +:+ Str.utf8 0x200b)
    = Str.utf8 0x200b +:+ "x" +:+ Str.utf8 0x200b
  ∧ Str.strip "  sha256-abc=  " = "sha256-abc="
  ∧ Str.lstrip "  a  " = "a  " ∧ Str.rstrip "  a  " = "  a"
  ∧ Str.strip "   " = EmptyString.
Proof. conjuncts; vm_compute; reflexivity. Qed.

Example splitlines_examples :
  let cr := String Str.CR EmptyString in
  Str.splitlines ("a" +:+ cr +:+ Str.nl +:+ "b" +:+ Str.utf8 0x2028 +:+ "c"
                    +:+ cr +:+ cr +:+ "d" +:+ Str.nl)
  = ["a"; "b"; "c"; EmptyString; "d"]
  ∧ Str.splitlines ("x" +:+ Str.utf8 0x0b +:+ Str.utf8 0x0c +:+ "y" +:+ Str.utf8 0x1c
                      +:+ "z" +:+ Str.utf8 0x85 +:+ "w ")
    = ["x"; EmptyString; "y"; "z"; "w "]
  ∧ Str.splitlines EmptyString = []
  ∧ Str.splitlines Str.nl = [EmptyString]
  ∧ Str.splitlines ("a" +:+ Str.utf8 0x1f +:+ "b") = ["a" +:+ Str.utf8 0x1f +:+ "b"]
  ∧ Str.splitlines (testbed.entry "linux/amd64" "sha256-x" "http://h" "tool")
    = ["linux/amd64"; "sha256-x"; "http://h"; "tool"].
Proof. intros cr. conjuncts; vm_compute; reflexivity. Qed.

Example text_lines_examples :
  let cr := String Str.CR EmptyString in
  Str.text_lines ("a" +:+ cr +:+ Str.nl +:+ "b" +:+ cr +:+ "c" +:+ Str.nl +:+ Str.nl
                    +:+ "d" +:+ Str.utf8 0x2028 +:+ "e")
  = ["a" +:+ Str.nl; "b" +:+ Str.nl; "c" +:+ Str.nl; Str.nl;
     "d" +:+ Str.utf8 0x2028 +:+ "e"]
  ∧ Str.text_lines EmptyString = []
  ∧ Str.write_newlines (cr +:+ Str.nl) ("a" +:+ Str.nl +:+ "b" +:+ Str.nl)
    = "a" +:+ cr +:+ Str.nl +:+ "b" +:+ cr +:+ Str.nl.
Proof. intros cr. conjuncts; vm_compute; reflexivity. Qed.

Example repr_examples :
  let tab := String (Str.chr 9) EmptyString in
  Str.repr_list testbed.printable
    [ "it's"; "say " +:+ String (Str.chr 34) "hi" +:+ String (Str.chr 34) EmptyString;
      "both ' and " +:+ String (Str.chr 34) EmptyString;
      "tab" +:+ tab +:+ "here";
      Str.utf8 0xe9 +:+ Str.utf8 0xad +:+ Str.utf8 0x7f +:+ Str.utf8 0;
      "back" +:+ Str.backslash +:+ "slash";
      Str.utf8 0x4e2d +:+ Str.utf8 0x2028 +:+ Str.utf8 0x1f600 +:+ Str.utf8 0xe000 ]
  = "[" +:+ String (Str.chr 34) "it's" +:+ String (Str.chr 34) ", "
        +:+ "'say " +:+ String (Str.chr 34) "hi" +:+ String (Str.chr 34) "', "
        +:+ "'both \' and " +:+ String (Str.chr 34) "', "
        +:+ "'tab\there', "
        +:+ "'" +:+ Str.utf8 0xe9 +:+ "\xad\x7f\x00', "
        +:+ "'back\\slash', "
        +:+ "'" +:+ Str.utf8 0x4e2d +:+ "\u2028" +:+ Str.utf8 0x1f600 +:+ "\ue000'"
        +:+ "]"
  ∧ Str.repr_list testbed.printable [] = "[]"
  ∧ Str.repr testbed.printable EmptyString = "''".
Proof. intros tab. conjuncts; vm_compute; reflexivity. Qed.

Example utf8_examples :
  let bytes_of (l : list N) := map base64.byte_of l in
  codecs.utf8_decode (bytes_of [0xe2; 0x82; 0xac]%N) = Ok (Str.utf8 0x20ac)
  ∧ codecs.utf8_decode (bytes_of [0xf0; 0x9f; 0x98; 0x80]%N) = Ok (Str.utf8 0x1f600)
  ∧ Forall (fun l => codecs.utf8_decode (bytes_of l)
                     = Raise (Builtin Cls.UnicodeDecodeError "utf-8"))
      [ [0xc0; 0x80]; [0xed; 0xa0; 0x80]; [0xf4; 0x90; 0x80; 0x80]; [0xe2; 0x82];
        [0x80]; [0xc2]; [0x61; 0xff; 0x62] ]%N
  ∧ codecs.utf8_encode (Str.utf8 0x20ac) = bytes_of [0xe2; 0x82; 0xac]%N
  ∧ map Str.point (Str.chars ("a" +:+ Str.utf8 0x20ac +:+ Str.utf8 0x1f600))
    = [0x61; 0x20ac; 0x1f600]%N
  ∧ codecs.lookup "UTF 8" = Some codecs.utf_8
  ∧ codecs.lookup "latin-1" = None
  ∧ codecs.decode [] "latin-1"
    = Raise (Builtin Cls.LookupError "unknown encoding: latin-1").
Proof.
  intros bytes_of. conjuncts; try (vm_compute; reflexivity).
  repeat (constructor; [vm_compute; reflexivity|]). constructor.
Qed.

Example base64_examples :
  let text (s : string) := list_byte_of_string s in
  map base64.b64decode ["QQ=="; "QUJD"; "Q U J D"; "QUJD===="; "QQ==QQ=="; "!!!!";
                        "QUI="; "=QUJD"; "QR=="]
  = map Ok [text "A"; text "ABC"; text "ABC"; text "ABC"; text "A"; []; text "AB";
            text "ABC"; text "A"]
  ∧ base64.b64decode "QQ" = Raise (Builtin Cls.binascii_Error "Incorrect padding")
  ∧ base64.b64decode "Q"
    = Raise (Builtin Cls.binascii_Error
               "Invalid base64-encoded string: number of data characters (1) cannot be 1 more than a multiple of 4")
  ∧ base64.b64decode (Str.utf8 0xe9)
    = Raise (Builtin Cls.ValueError
               "string argument should contain only ASCII characters")
  ∧ map b64text [[]; text "A"; text "AB"; text "ABC";
                 map base64.byte_of [0xff; 0xfe; 0xfd; 0xfc]%N]
    = [EmptyString; "QQ=="; "QUI="; "QUJD"; "//79/A=="].
Proof. intros text. conjuncts; vm_compute; reflexivity. Qed.

Example pathlib_examples :
  map (fun ab => posix.joinpath ab.1 ab.2)
    [ ("/prefix/download-default", "test.bat"); ("/p", "../x"); ("/p", "/abs");
      ("p//q/", "./r/."); (EmptyString, "x"); (".", ".") ]
  = ["/prefix/download-default/test.bat"; "/p/../x"; "/abs"; "p/q/r"; "x"; "."]
  ∧ map posix.PurePath [EmptyString; "."; "//a//b/"; "///a"; "a/./b"; "/"]
    = ["."; "."; "//a/b"; "/a"; "a/b"; "/"]
  ∧ map posix.resolve ["/p/../x"; "/../a"; "../a/../../b"; "a/b/../c"; "/a/./b//c/.."]
    = ["/x"; "/a"; "../../b"; "a/c"; "/a/b"]
  ∧ posix.locate "/prefix/download-default" "../download-default/health.srisum"
    = posix.locate "/prefix/download-default" "health.srisum".
Proof. conjuncts; vm_compute; reflexivity. Qed.

Example urlsplit_examples :
  map urllib.urlsplit
    [ "http://127.0.0.1:5555"; "HTTP://Host/x"; "file:///x"; "a:b"; "//host/p";
      " http://h"; "http://h?q"; "http://h:80/p#f"; "1http://host"; "+x://h";
      "no scheme" ]
  = map Ok [ ("http", "127.0.0.1:5555"); ("http", "Host"); ("file", EmptyString);
             ("a", EmptyString); (EmptyString, "host"); ("http", "h"); ("http", "h");
             ("http", "h:80"); (EmptyString, EmptyString);
             (EmptyString, EmptyString); (EmptyString, EmptyString) ]
  ∧ urllib.urlsplit "http://[bad" = Raise (Builtin Cls.ValueError "Invalid IPv6 URL")
  ∧ URI.init (testbed.runtime []) "1http://host"
    = Raise (Builtin Cls.ValueError "Invalid URI: 1http://host")
  ∧ URI.init (testbed.runtime []) "file:///x"
    = Raise (Builtin Cls.ValueError "Invalid URI: file:///x")
  ∧ URI.init (testbed.runtime []) "http://127.0.0.1:5555"
    = Ok {| URI.value := "http://127.0.0.1:5555" |}.
Proof. conjuncts; vm_compute; reflexivity. Qed.

(** ** The tests of the module, run on the embedding *)

(** [test_download_healthy_health_check]: after the install of
    [healthy_dependencies] the health check finds nothing wrong, and the
    script has the bits 0o500. *)
Example test_download_healthy_health_check :
  let rt := testbed.runtime testbed.shellscript in
  let '(r, w) := install_environment rt "/prefix" "default"
                   testbed.healthy_dependencies testbed.empty in
  r = Ok tt
  ∧ fs w !! "/prefix/download-default/test.bat"
    = Some {| content := testbed.shellscript; mode := 0x140 |}
  ∧ fs w !! "/prefix/download-default/health.srisum"
    = Some {| content :=
                list_byte_of_string
                  ("sha256-oRJkj6Cr8nWIivZ9d3W+rVZt/aSW1l9YtxSVh+GtIHM=  test.bat"
                     +:+ Str.nl);
              mode := 0x1a4 |}
  ∧ (health_check rt "/prefix" "default" w).1 = Ok None.
Proof. vm_compute. repeat split. Qed.

(** [test_download_unhealthy_download]: the descriptor of the wrong length
    stops the install before anything is fetched. *)
Example test_download_unhealthy_download :
  let rt := testbed.runtime testbed.shellscript in
  install_environment rt "/prefix" "default" testbed.deps_invalid_length
    testbed.empty
  = (Raise (Builtin Cls.ValueError
              "Invalid checksum string length of 33 for sha256, expected 32"),
     with_dir "/prefix/download-default" testbed.empty).
Proof. vm_compute. reflexivity. Qed.

(** [test_download_unhealthy_health_check]: the script is overwritten after
    the install, and the health check reports it. *)
Example test_download_unhealthy_health_check :
  health_check (testbed.runtime testbed.shellscript) "/prefix" "default" tampered
  = (Ok (Some ("test.bat checksum mismatch:" +:+ Str.nl
                 +:+ " - expected: oRJkj6Cr8nWIivZ9d3W+rVZt/aSW1l9YtxSVh+GtIHM=" +:+ Str.nl
                 +:+ " - actual  : e3DTq0x2QVQuHxWLRY7q58+3vbgV1BEMxheLr8/fQ/g=" +:+ Str.nl
                 +:+ "Please reinstall the Download environment")), tampered).
Proof. vm_compute. reflexivity. Qed.

(** ** The file system on examples *)

(** A second install over the first is refused where the process has no
    privilege: the artifact has lost its write bit. *)
Example reinstall_is_refused :
  let rt := testbed.runtime testbed.shellscript in
  let w := (install_environment rt "/prefix" "default" testbed.healthy_dependencies
              testbed.empty).2 in
  install_environment rt "/prefix" "default" testbed.healthy_dependencies w
  = (Raise (Builtin Cls.PermissionError "/prefix/download-default/test.bat"), w).
Proof. vm_compute. reflexivity. Qed.

(** A destination in a directory that is not there, and a destination
    that is the environment directory itself. *)
Example destination_is_refused :
  let rt := testbed.runtime testbed.shellscript in
  let install name :=
    (install_environment rt "/prefix" "default"
       [testbed.entry "linux/amd64" ("sha256-" +:+ testbed.shell_checksum)
          "http://127.0.0.1:5555" name] testbed.empty).1 in
  install "sub/tool"
  = Raise (Builtin Cls.FileNotFoundError "/prefix/download-default/sub/tool")
  ∧ install "." = Raise (Builtin Cls.IsADirectoryError "/prefix/download-default").
Proof. intros rt install. conjuncts; vm_compute; reflexivity. Qed.

(** The sidecar file reached through another path: the destination
    [../download-default/health.srisum] is the sidecar file, and a failed
    install leaves the body in it. *)
Example sidecar_through_another_path :
  let rt := testbed.runtime [] in
  let fname := "../download-default/health.srisum" in
  let deps := [testbed.entry "linux/amd64" ("sha256-" +:+ testbed.shell_checksum)
                 "http://127.0.0.1:5555" fname] in
  let '(r, w) := install_environment rt "/prefix" "default" deps testbed.empty in
  joinpath rt (envdir_of rt "/prefix" "default") fname
  = joinpath rt (envdir_of rt "/prefix" "default") "health.srisum"
  ∧ catches Cls.ChecksumMismatchError
      (match r with Raise e => e | Ok _ => Builtin Cls.Exception EmptyString end)
    = true
  ∧ fs w !! "/prefix/download-default/health.srisum"
    = Some {| content := []; mode := 0x1a4 |}
  ∧ health_check rt "/prefix" "default" w = (Ok None, w).
Proof. vm_compute. repeat split. Qed.

(** An entry under the descriptor "shake_128-": the body is written, and
    the [TypeError] of [digest()] ends the install; no record is written.
    A record that names the descriptor makes the health check raise that
    error, which it does not catch. *)
Example shake_entry :
  let rt := shake_host testbed.shellscript in
  let deps := [testbed.entry "linux/amd64" "shake_128-" "http://127.0.0.1:5555"
                 "tool"] in
  let error := Builtin Cls.TypeError
                 "digest() missing required argument 'length' (pos 1)" in
  let '(r, w) := install_environment rt "/prefix" "default" deps testbed.empty in
  r = Raise error
  ∧ fs w !! "/prefix/download-default/tool"
    = Some {| content := testbed.shellscript; mode := 0x1a4 |}
  ∧ fs w !! "/prefix/download-default/health.srisum" = None
  ∧ (health_check rt "/prefix" "default"
       (stored "/prefix/download-default/health.srisum"
          (record_line rt shake_sri "tool") 0x1a4 w)).1
    = Raise error.
Proof. vm_compute. repeat split. Qed.

